(** * evabot-backend: the telemetry ingestion worker

    A shallow embedding of [cmd/telem_worker/main.go]: the timestamp-unit
    heuristic [unixAnyToTime], the integer view [asInt64] of a decoded JSON
    value, the field flattening [extractFields] and the body of the
    JetStream subscription handler of [main], followed by the properties
    of the worker stated in the design document.

    Conventions.
    - [int64] values are [Z] with the wrap-around of Go's arithmetic written
      out ([Int64.wrap]).
    - A [time.Time] is the instant it denotes, as the (unbounded) number of
      nanoseconds since the Unix epoch.
    - Go strings are byte strings: [string].
    - [map[string]interface{}] is a [gmap string value]; ranging over a Go
      map is a [map_fold].
    - The handler's effects (log lines, the sink write, the acknowledgment
      signals) are recorded in order in a trace of [event]s; what the
      environment answers (clock readings, the message metadata, the result
      of decoding, the sink's verdict) is an input of the handler. *)

From Stdlib Require Import ZArith Lia Bool Ascii String List.
From Stdlib Require Import Floats.SpecFloat.
From stdpp Require Import base option gmap strings list fin_maps.

Set Warnings "-register-all".
Local Open Scope Z_scope.

(* ===================================================================== *)
(** * Machine integers *)

Module Int64.

Definition min_int : Z := - 2 ^ 63.
Definition max_int : Z := 2 ^ 63 - 1.

Definition in_range (z : Z) : Prop := min_int <= z <= max_int.

(** Two's complement reduction of a mathematical integer to int64. *)
Definition wrap (z : Z) : Z := (z + 2 ^ 63) mod 2 ^ 64 - 2 ^ 63.

(** [a * b] on int64 operands. *)
Definition mul (a b : Z) : Z := wrap (a * b).

End Int64.

(* ===================================================================== *)
(** * The parts of Go's standard library the worker calls *)

(** ** package strconv *)

Module strconv.

Inductive NumError : Set := ErrSyntax | ErrRange.

(** A Go result pair [(v, err)]: [Ok v] when [err == nil]. *)
Inductive result (A : Type) : Type :=
| Ok (v : A)
| Err (e : NumError).
Arguments Ok {A} v.
Arguments Err {A} e.

Definition is_ok {A} (r : result A) : bool :=
  match r with Ok _ => true | Err _ => false end.

Definition digit_of (c : ascii) : option Z :=
  let n := Z.of_N (N_of_ascii c) in
  if (48 <=? n) && (n <=? 57) then Some (n - 48) else None.

(** The digit loop of [ParseUint(s, 10, 64)]: [acc] is the value read so
    far; any byte that is not a decimal digit is a syntax error. The
    accumulator is unbounded here, the range is checked by the caller. *)
Fixpoint digits (s : string) (acc : Z) : option Z :=
  match s with
  | EmptyString => Some acc
  | String c s' =>
      match digit_of c with
      | Some d => digits s' (10 * acc + d)
      | None => None
      end
  end.

(** [ParseUint(s, 10, 64)]. *)
Definition ParseUint (s : string) : result Z :=
  match s with
  | EmptyString => Err ErrSyntax
  | _ =>
      match digits s 0 with
      | None => Err ErrSyntax
      | Some un => if un <=? 2 ^ 64 - 1 then Ok un else Err ErrRange
      end
  end.

(** [ParseInt(s, 10, 64)]: an optional sign, then [ParseUint], then the
    check against the cutoff [1 << 63]. *)
Definition ParseInt (s : string) : result Z :=
  match s with
  | EmptyString => Err ErrSyntax
  | String c s' =>
      let neg := Ascii.eqb c "-" in
      let body := if Ascii.eqb c "+" || neg then s' else s in
      match ParseUint body with
      | Err e => Err e
      | Ok un =>
          let cutoff := 2 ^ 63 in
          if negb neg && (cutoff <=? un) then Err ErrRange
          else if neg && (cutoff <? un) then Err ErrRange
          else Ok (if neg then - un else un)
      end
  end.

End strconv.

(** ** package strings *)

Module strings.

Fixpoint HasPrefix (s prefix : string) {struct prefix} : bool :=
  match prefix, s with
  | EmptyString, _ => true
  | String p prefix', String c s' => Ascii.eqb c p && HasPrefix s' prefix'
  | String _ _, EmptyString => false
  end.

(** [Contains(s, substr)]: [substr] occurs at some offset of [s]. *)
Fixpoint Contains (s substr : string) : bool :=
  HasPrefix s substr ||
  match s with
  | EmptyString => false
  | String _ s' => Contains s' substr
  end.

End strings.

(** ** package time *)

Module time.

(** An instant: nanoseconds since 1970-01-01T00:00:00Z. Only the wall
    clock is modelled, [Before] and [After] compare instants. *)
Definition Time : Type := Z.
Definition Duration : Type := Z.

Definition Nanosecond : Duration := 1.
Definition Second : Duration := 1000000000.
Definition Hour : Duration := 3600 * Second.

(** [Unix(sec, nsec)]: [nsec] may lie outside [0, 1e9). *)
Definition Unix (sec nsec : Z) : Time := sec * 1000000000 + nsec.

Definition Before (t u : Time) : bool := t <? u.
Definition After (t u : Time) : bool := u <? t.
Definition Add (t : Time) (d : Duration) : Time := t + d.

(** Proleptic Gregorian calendar, days counted from 1970-01-01. *)
Definition days_from_civil (y m d : Z) : Z :=
  let y' := if m <=? 2 then y - 1 else y in
  let era := y' / 400 in
  let yoe := y' - era * 400 in
  let doy := (153 * (if 2 <? m then m - 3 else m + 9) + 2) / 5 + d - 1 in
  let doe := yoe * 365 + yoe / 4 - yoe / 100 + doy in
  era * 146097 + doe - 719468.

Definition civil_from_days (z : Z) : Z * Z * Z :=
  let z' := z + 719468 in
  let era := z' / 146097 in
  let doe := z' - era * 146097 in
  let yoe := (doe - doe / 1460 + doe / 36524 - doe / 146096) / 365 in
  let doy := doe - (365 * yoe + yoe / 4 - yoe / 100) in
  let mp := (5 * doy + 2) / 153 in
  let d := doy - (153 * mp + 2) / 5 + 1 in
  let m := if mp <? 10 then mp + 3 else mp - 9 in
  (yoe + era * 400 + (if m <=? 2 then 1 else 0), m, d).

Definition nanos_per_day : Z := 86400 * Second.

(** [t.AddDate(years, months, days)] for a [t] located in UTC: the date
    of [t] is shifted field by field and normalised the way [Date] does
    (month overflow carries into the year, day overflow into the
    following months); the time of day is kept. *)
Definition AddDate_utc (t : Time) (years months days : Z) : Time :=
  let day := t / nanos_per_day in
  let clock := t mod nanos_per_day in
  let '(y, m, d) := civil_from_days day in
  let m0 := m + months - 1 in
  let y1 := y + years + m0 / 12 in
  let m1 := m0 mod 12 + 1 in
  (days_from_civil y1 m1 1 + (d + days - 1)) * nanos_per_day + clock.

(** A [*Location]: the offset from UTC, in nanoseconds, in force at each
    instant. *)
Definition Location : Type := Time -> Z.

Definition UTC : Location := fun _ => 0.

(** [t.AddDate(years, months, days)] for a [t] located in [loc]. The date
    and the clock of [t] are read in [loc]; [Date] computes the instant
    [unix] these fields denote in UTC, looks up the offset in force at
    [unix], and when [unix] less that offset falls outside the period of
    that offset, the offset in force there; it subtracts the offset
    found. *)
Definition AddDate_in (loc : Location) (t : Time) (years months days : Z) : Time :=
  let unix := AddDate_utc (t + loc t) years months days in
  unix - loc (unix - loc unix).

End time.

(** ** float64 *)

Module Float64.

(** IEEE 754 binary64 values. *)
Definition t : Type := spec_float.

Definition prec : Z := 53.
Definition emax : Z := 1024.

(** The comparison [math.Trunc(x) == x]: true of the integral values and
    of the two infinities, false of the rest and of NaN. *)
Definition trunc_eq (x : t) : bool :=
  match x with
  | S754_zero _ => true
  | S754_infinity _ => true
  | S754_nan => false
  | S754_finite _ m e => (0 <=? e) || (Z.pos m mod 2 ^ (- e) =? 0)
  end.

Definition is_finite (x : t) : bool :=
  match x with
  | S754_zero _ | S754_finite _ _ _ => true
  | _ => false
  end.

(** The value nearest to [m * 10 ^ e] (ties to even), an infinity when
    that is out of range. For a negative [e] the quotient is taken with
    64 significant bits and a sticky bit, so rounding it once more to 53
    bits rounds the exact quotient. *)
Definition of_decimal (neg : bool) (m e : Z) : t :=
  if m =? 0 then S754_zero neg
  else
    let sgn := if neg then -1 else 1 in
    if 0 <=? e then binary_normalize prec emax (sgn * (m * 10 ^ e)) 0 neg
    else
      let d := 10 ^ (- e) in
      let k := Z.max 0 (Z.log2 d - Z.log2 m + 64) in
      let q := (m * 2 ^ k) / d in
      let sticky := if (m * 2 ^ k) mod d =? 0 then 0 else 1 in
      binary_normalize prec emax (sgn * (2 * q + sticky)) (- k - 1) neg.

(** The conversion [int64(x)] as compiled for amd64: truncation toward
    zero, and the "integer indefinite" value [-2^63] when the result is
    not representable. *)
Definition to_int64_amd64 (x : t) : Z :=
  match x with
  | S754_zero _ => 0
  | S754_finite s m e =>
      let a := if 0 <=? e then Z.pos m * 2 ^ e else Z.pos m / 2 ^ (- e) in
      let v := if s then - a else a in
      if (Int64.min_int <=? v) && (v <=? Int64.max_int) then v
      else Int64.min_int
  | _ => Int64.min_int
  end.

End Float64.

Definition float64 : Type := Float64.t.

(** ** The decimal syntax of [strconv.ParseFloat] *)

Module atof.

Import strconv.

(** Mantissa digits with at most one point: [m] is the integer made of
    the digits read, [frac] the number of digits after the point. *)
Fixpoint mantissa (s : string) (sawdot sawdigits : bool) (m frac : Z)
  : option (Z * Z * string) :=
  match s with
  | EmptyString => if sawdigits then Some (m, frac, s) else None
  | String c s' =>
      if Ascii.eqb c "." then
        if sawdot then (if sawdigits then Some (m, frac, s) else None)
        else mantissa s' true sawdigits m frac
      else
        match digit_of c with
        | Some d =>
            mantissa s' sawdot true (10 * m + d) (if sawdot then frac + 1 else frac)
        | None => if sawdigits then Some (m, frac, s) else None
        end
  end.

(** The optional exponent part; nothing may follow it. *)
Definition exponent (s : string) : option Z :=
  match s with
  | EmptyString => Some 0
  | String c s' =>
      if Ascii.eqb c "e" || Ascii.eqb c "E" then
        match s' with
        | EmptyString => None
        | String c' s'' =>
            let neg := Ascii.eqb c' "-" in
            let body := if Ascii.eqb c' "+" || neg then s'' else s' in
            match body with
            | EmptyString => None
            | _ =>
                match digits body 0 with
                | Some e => Some (if neg then - e else e)
                | None => None
                end
            end
        end
      else None
  end.

(** [ParseFloat(s, 64)] on decimal literals: sign, digits with an
    optional point, optional exponent. A literal too large in magnitude
    for float64 is a range error. The hexadecimal, underscore, infinity
    and NaN spellings that Go also accepts are outside this model (no
    number of a JSON document has them) and reported as syntax errors. *)
Definition ParseFloat_decimal (s : string) : result float64 :=
  match s with
  | EmptyString => Err ErrSyntax
  | String c s' =>
      let neg := Ascii.eqb c "-" in
      let body := if Ascii.eqb c "+" || neg then s' else s in
      match mantissa body false false 0 0 with
      | None => Err ErrSyntax
      | Some (m, frac, rest) =>
          match exponent rest with
          | None => Err ErrSyntax
          | Some e =>
              let f := Float64.of_decimal neg m (e - frac) in
              if Float64.is_finite f then Ok f else Err ErrRange
          end
      end
  end.

End atof.

(* ===================================================================== *)
(** * Dynamically typed values *)

(** The dynamic types an [interface{}] takes in the worker: what
    [encoding/json] stores when decoding with [UseNumber] (nil, bool,
    string, [json.Number], slices and maps), the [float64] and [int64]
    that the type switches of the worker also accept, and the values the
    worker itself stores in a field set. *)
Inductive value : Type :=
| VNil
| VBool (b : bool)
| VString (s : string)
| VNumber (n : string)
| VFloat64 (f : float64)
| VInt64 (i : Z)
| VArray (l : list value)
| VMap (m : gmap string value).

(** [type anyMap = map[string]interface{}] *)
Abbreviation anyMap := (gmap string value) (only parsing).

(** [m[k]] on a Go map: the zero value (a nil interface) when [k] is
    missing; a nil map reads like the empty one. *)
Definition index (m : anyMap) (k : string) : value :=
  match m !! k with
  | Some v => v
  | None => VNil
  end.

(** What the worker needs from the Go runtime and libraries and does not
    depend on the worker itself. *)
Class Runtime : Type := {
  (** [strconv.ParseFloat(s, 64)] *)
  ParseFloat : string -> strconv.result float64;
  (** the conversion [int64(x)] of a [float64] *)
  Float64ToInt64 : float64 -> Z;
  (** [t.AddDate(years, months, days)], in the location [t] carries *)
  AddDate : time.Time -> Z -> Z -> Z -> time.Time
}.

(** A runtime to compute with: decimal literals, amd64, UTC. *)
Definition utc_amd64 : Runtime := {|
  ParseFloat := atof.ParseFloat_decimal;
  Float64ToInt64 := Float64.to_int64_amd64;
  AddDate := time.AddDate_utc
|}.

(** The same for a process whose [time.Local] is [loc]. *)
Definition located_amd64 (loc : time.Location) : Runtime := {|
  ParseFloat := atof.ParseFloat_decimal;
  Float64ToInt64 := Float64.to_int64_amd64;
  AddDate := time.AddDate_in loc
|}.

(** [json.Number] is a string holding the literal. *)
Module Number.

(** [func (n Number) Int64() (int64, error)] *)
Definition Int64 (n : string) : strconv.result Z := strconv.ParseInt n.

(** [func (n Number) Float64() (float64, error)] *)
Definition Float64 `{Runtime} (n : string) : strconv.result float64 :=
  ParseFloat n.

End Number.

(* ===================================================================== *)
(** * The worker *)

Section Worker.

Context `{rt : Runtime}.

(** [func unixAnyToTime(ts int64) time.Time] *)
Definition unixAnyToTime (ts : Z) : time.Time :=
  if 100000000000000000 <=? ts then            (* ts >= 1e17: nanoseconds *)
    time.Unix 0 ts
  else if 100000000000000 <=? ts then          (* ts >= 1e14: microseconds *)
    time.Unix 0 (Int64.mul ts 1000)
  else if 100000000000 <=? ts then             (* ts >= 1e11: milliseconds *)
    time.Unix 0 (Int64.mul ts 1000000)
  else                                         (* seconds *)
    time.Unix ts 0.

(** [func asInt64(v interface{}) (int64, bool)] *)
Definition asInt64 (v : value) : Z * bool :=
  match v with
  | VFloat64 t =>
      if Float64.trunc_eq t then (Float64ToInt64 t, true) else (0, false)
  | VInt64 t => (t, true)
  | VNumber t =>
      match Number.Int64 t with
      | strconv.Ok i => (i, true)
      | strconv.Err _ => (0, false)
      end
  | _ => (0, false)
  end.

(** The type switch shared by the two loops of [extractFields]: the value
    stored under the key, if one is. *)
Definition field_of (v : value) : option value :=
  match v with
  | VFloat64 vv => Some (VFloat64 vv)
  | VBool vv => Some (VBool vv)
  | VNumber vv =>
      match Number.Float64 vv with
      | strconv.Ok f => Some (VFloat64 f)
      | strconv.Err _ => None
      end
  | _ => None
  end.

(** One iteration of such a loop: [fields[k] = ...] or nothing. *)
Definition store (k : string) (v : value) (fields : anyMap) : anyMap :=
  match field_of v with
  | Some x => <[k := x]> fields
  | None => fields
  end.

(** [k == "data" || k == "topic" || k == "trace_id" || k == "ts_ns"] *)
Definition reserved (k : string) : bool :=
  String.eqb k "data" || String.eqb k "topic" ||
  String.eqb k "trace_id" || String.eqb k "ts_ns".

(** [func extractFields(m anyMap) (fields map[string]interface{}, topic string)] *)
Definition extractFields (m : anyMap) : anyMap * string :=
  let fields : anyMap := ∅ in
  let topic := match index m "topic" with VString tv => tv | _ => "" end in
  let fields :=
    match index m "data" with
    | VMap dv => map_fold store fields dv
    | _ => fields
    end in
  let fields :=
    map_fold (fun k v fields => if reserved k then fields else store k v fields)
             fields m in
  (fields, topic).

(** ** The subscription handler *)

(** The [*nats.Msg] handed to the handler. *)
Record Msg : Type := {
  Subject : string;
  Data : string
}.

(** What the surroundings answer during one run of the handler. *)
Record Env : Type := {
  (** [time.Now()] on entry *)
  clock_entry : time.Time;
  (** [msg.Metadata()]: [md.Timestamp] when it returns no error *)
  metadata : option time.Time;
  (** [dec.Decode(&parsed)]: the map stored in [parsed] when it returns
      no error; on an error [parsed] keeps its zero value, the nil map *)
  decoded : option anyMap;
  (** [time.Now()] before the sanity check *)
  clock_check : time.Time
}.

(** An [influxdb2] point: [NewPoint(measurement, tags, fields, ts)]. *)
Record Point : Type := NewPoint {
  measurement : string;
  tags : gmap string string;
  fields : anyMap;
  timestamp : time.Time
}.

(** [write.WritePoint(ctx, p)]: [None] for a nil error, else the text
    [err.Error()]. *)
Definition Sink : Type := Point -> option string.

(** What the handler does, in order. *)
Inductive event : Type :=
| LogDropBadTimestamp (ts : time.Time) (subject : string)
| LogDropUnsalvageable (ts : time.Time) (err : string)
| LogWriteError (err : string)
| PrintTelemetry (subject : string) (ts : time.Time) (raw : string)
| WritePoint (p : Point)
| Ack
| Nak.

(** The function passed to [js.Subscribe], statement by statement;
    [write] is [None] when no token is configured ([write == nil]). *)
Definition handler (write : option Sink) (msg : Msg) (env : Env) : list event :=
  (* default timestamp = JetStream server timestamp *)
  let ts := clock_entry env in
  let ts := match metadata env with Some md_Timestamp => md_Timestamp | None => ts end in
  (* parse JSON if possible *)
  let raw := Data msg in
  let parsed : anyMap := match decoded env with Some m => m | None => ∅ end in
  (* consider ts_ns override *)
  let ts :=
    match asInt64 (index parsed "ts_ns") with
    | (v, true) => if 0 <? v then unixAnyToTime v else ts
    | (_, false) => ts
    end in
  let now := clock_check env in
  if time.Before ts (AddDate now (-10) 0 0) || time.After ts (time.Add now (24 * time.Hour))
  then
    [LogDropBadTimestamp ts (Subject msg); Ack]     (* do NOT retry this one *)
  else
    let '(fields, topic) := extractFields parsed in
    (* always keep raw for debug *)
    let fields := <["raw" := VString raw]> fields in
    let tags : gmap string string := {[ "subject" := Subject msg ]} in
    let tags := if String.eqb topic "" then tags else <["topic" := topic]> tags in
    match write with
    | Some w =>
        let p := NewPoint "telemetry" tags fields ts in
        WritePoint p ::
        match w p with
        | Some err =>
            if strings.Contains err "outside retention policy" ||
               strings.Contains err "unprocessable entity"
            then [LogDropUnsalvageable ts err; Ack]
            else [LogWriteError err; Nak]           (* let JetStream retry *)
        | None => [Ack]
        end
    | None => [PrintTelemetry (Subject msg) ts raw; Ack]
    end.

(** ** The stages of the handler, by name *)

(** The default timestamp: the JetStream server timestamp, the local
    clock when the message has no metadata. *)
Definition default_ts (env : Env) : time.Time :=
  match metadata env with
  | Some t => t
  | None => clock_entry env
  end.

(** The variable [parsed] after the call of [Decode]. *)
Definition parsed (env : Env) : anyMap :=
  match decoded env with
  | Some m => m
  | None => ∅
  end.

(** The timestamp after the [ts_ns] override has been considered. *)
Definition resolve_ts (env : Env) : time.Time :=
  let ts := default_ts env in
  match asInt64 (index (parsed env) "ts_ns") with
  | (v, true) => if 0 <? v then unixAnyToTime v else ts
  | (_, false) => ts
  end.

(** [ts.Before(now.AddDate(-10, 0, 0)) || ts.After(now.Add(24*time.Hour))] *)
Definition bad_timestamp (now ts : time.Time) : bool :=
  time.Before ts (AddDate now (-10) 0 0) ||
  time.After ts (time.Add now (24 * time.Hour)).

(** The field set handed to [NewPoint]. *)
Definition point_fields (msg : Msg) (env : Env) : anyMap :=
  <["raw" := VString (Data msg)]> (extractFields (parsed env)).1.

(** The tag set handed to [NewPoint]. *)
Definition point_tags (msg : Msg) (env : Env) : gmap string string :=
  let topic := (extractFields (parsed env)).2 in
  if String.eqb topic "" then {[ "subject" := Subject msg ]}
  else <["topic" := topic]> {[ "subject" := Subject msg ]}.

(** The test that decides between dropping and retrying a failed write. *)
Definition unsalvageable (err : string) : bool :=
  strings.Contains err "outside retention policy" ||
  strings.Contains err "unprocessable entity".

(** The acknowledgment signals of a trace. *)
Definition is_signal (e : event) : bool :=
  match e with
  | Ack | Nak => true
  | _ => false
  end.

Definition signals (tr : list event) : list event := List.filter is_signal tr.

(** The points submitted to the sink in a trace. *)
Fixpoint written (tr : list event) : list Point :=
  match tr with
  | [] => []
  | WritePoint p :: tr' => p :: written tr'
  | _ :: tr' => written tr'
  end.

End Worker.

(* ===================================================================== *)
(** * The design document's vocabulary *)

(** The unit bands of the timestamp heuristic, by the document's boundary
    rule: value >= 1e17 is nanoseconds; >= 1e14 microseconds; >= 1e11
    milliseconds; else seconds. *)
Inductive unit_band : Set := Seconds | Milliseconds | Microseconds | Nanoseconds.

Definition spec_band (v : Z) : unit_band :=
  if 10 ^ 17 <=? v then Nanoseconds
  else if 10 ^ 14 <=? v then Microseconds
  else if 10 ^ 11 <=? v then Milliseconds
  else Seconds.

(** Nanoseconds per unit. *)
Definition band_factor (b : unit_band) : Z :=
  match b with
  | Seconds => 10 ^ 9
  | Milliseconds => 10 ^ 6
  | Microseconds => 10 ^ 3
  | Nanoseconds => 1
  end.

(** The sanity window [now - 10 years, now + 24 hours]. *)
Definition in_window `{Runtime} (now ts : time.Time) : Prop :=
  AddDate now (-10) 0 0 <= ts <= now + 24 * time.Hour.

(** A numeric value: a JSON number, or one of Go's own number types. *)
Definition is_numeric (v : value) : bool :=
  match v with
  | VNumber _ | VFloat64 _ | VInt64 _ => true
  | _ => false
  end.

Definition is_boolean (v : value) : bool :=
  match v with
  | VBool _ => true
  | _ => false
  end.

(** The nested [data] mapping of a payload, empty when there is none. *)
Definition data_of (m : anyMap) : anyMap :=
  match m !! "data" with
  | Some (VMap dv) => dv
  | _ => ∅
  end.

(** A number literal with a fractional part. *)
Definition has_fraction (n : string) : bool := strings.Contains n ".".

(* ===================================================================== *)
(** * Deliveries to compute with *)

Module Scenario.

(** The byte 0x22. *)
Definition quote : string := String (ascii_of_nat 34) EmptyString.
Definition q (s : string) : string := quote +:+ s +:+ quote.

(** 2026-11-02T12:00:00Z, and a receipt two seconds earlier. *)
Definition now : time.Time :=
  time.days_from_civil 2026 11 2 * time.nanos_per_day + 12 * time.Hour.
Definition receipt : time.Time := now - 2 * time.Second.

Definition env_of (md : option time.Time) (dec : option anyMap) : Env :=
  {| clock_entry := now - 1000000; metadata := md; decoded := dec; clock_check := now |}.

Definition msg_of (payload : string) : Msg :=
  {| Subject := "telemetry.arm1"; Data := payload |}.

(** [{"data":{"x":1.5},"topic":"arm"}] *)
Definition payload_A : string :=
  "{" +:+ q "data" +:+ ":{" +:+ q "x" +:+ ":1.5}," +:+ q "topic" +:+ ":" +:+ q "arm" +:+ "}".
Definition decoded_A : anyMap :=
  {[ "data" := VMap {[ "x" := VNumber "1.5" ]}; "topic" := VString "arm" ]}.
Definition env_A : Env := env_of (Some receipt) (Some decoded_A).

(** [{"ts_ns": 1700000000000, "v": true}] *)
Definition payload_B : string :=
  "{" +:+ q "ts_ns" +:+ ": 1700000000000, " +:+ q "v" +:+ ": true}".
Definition decoded_B : anyMap :=
  {[ "ts_ns" := VNumber "1700000000000"; "v" := VBool true ]}.
Definition env_B : Env := env_of (Some receipt) (Some decoded_B).

(** [{"ts_ns": 99999999999999999}] *)
Definition payload_C : string := "{" +:+ q "ts_ns" +:+ ": 99999999999999999}".
Definition decoded_C : anyMap := {[ "ts_ns" := VNumber "99999999999999999" ]}.
Definition env_C : Env := env_of (Some receipt) (Some decoded_C).

(** A payload that is no JSON document. *)
Definition payload_malformed : string := "angle=12.5".
Definition env_malformed : Env := env_of (Some receipt) None.

(** A message the broker stored eleven years ago. *)
Definition env_stale : Env :=
  env_of (Some (time.AddDate_utc now (-11) 0 0)) (Some decoded_A).

(** [{"x": 1e999}]: a number no float64 holds. *)
Definition payload_huge : string := "{" +:+ q "x" +:+ ": 1e999}".
Definition decoded_huge : anyMap := {[ "x" := VNumber "1e999" ]}.

(** [{"ts_ns": 1.5}] *)
Definition payload_fraction : string := "{" +:+ q "ts_ns" +:+ ": 1.5}".
Definition decoded_fraction : anyMap := {[ "ts_ns" := VNumber "1.5" ]}.
Definition env_fraction : Env := env_of (Some receipt) (Some decoded_fraction).

(** [{"raw": 7, "data": {"raw": true}}] *)
Definition payload_raw : string :=
  "{" +:+ q "raw" +:+ ": 7, " +:+ q "data" +:+ ": {" +:+ q "raw" +:+ ": true}}".
Definition decoded_raw : anyMap :=
  {[ "raw" := VNumber "7"; "data" := VMap {[ "raw" := VBool true ]} ]}.
Definition env_raw : Env := env_of (Some receipt) (Some decoded_raw).

(** Sinks. *)
Definition sink_accepting : Sink := fun _ => None.
Definition sink_retention : Sink :=
  fun _ => Some "write failed: point outside retention policy".
Definition sink_timeout : Sink :=
  fun _ => Some "dial tcp 127.0.0.1:8086: i/o timeout".

End Scenario.

(* ===================================================================== *)
(** * The rest of the worker: configuration and start-up *)

(** ** package os *)

Module os.

(** The process environment, and [Getenv(k)]: the value of [k], empty
    when the variable is not present. *)
Definition Getenv (environ : gmap string string) (k : string) : string :=
  match environ !! k with
  | Some v => v
  | None => ""
  end.

End os.

(** [func getenv(k, def string) string] *)
Definition getenv (environ : gmap string string) (k def : string) : string :=
  let v := os.Getenv environ k in
  if negb (String.eqb v "") then v else def.

(** The settings [main] reads. *)
Record Config : Type := {
  natsURL : string;
  influxURL : string;
  influxOrg : string;
  influxBucket : string;
  influxToken : string
}.

Definition load_config (environ : gmap string string) : Config :=
  {| natsURL := getenv environ "NATS_URL" "nats://127.0.0.1:4222";
     influxURL := getenv environ "INFLUX_URL" "http://127.0.0.1:8086";
     influxOrg := getenv environ "INFLUX_ORG" "r4f";
     influxBucket := getenv environ "INFLUX_BUCKET" "telemetry_raw";
     influxToken := os.Getenv environ "INFLUX_TOKEN" |}.

(** [influxdb2.NewClient(url, token).WriteAPIBlocking(org, bucket)]: the
    sink reached with these settings. *)
Definition InfluxClient : Type := string -> string -> string -> string -> Sink.

(** The variable [write] of [main]: set when a token is configured. *)
Definition write_api (client : InfluxClient) (cfg : Config) : option Sink :=
  if negb (String.eqb (influxToken cfg) "") then
    Some (client (influxURL cfg) (influxToken cfg) (influxOrg cfg) (influxBucket cfg))
  else None.

(** The handler [main] subscribes, as the environment configures it. *)
Definition worker `{Runtime} (environ : gmap string string) (client : InfluxClient)
    (msg : Msg) (env : Env) : list event :=
  handler (write_api client (load_config environ)) msg env.

(** ** Ranging in a given order *)

(** [extractFields] with its two [range] loops visiting the members in
    the order of the lists given: [order_data] for the nested mapping,
    [order_top] for the payload. *)
Definition extractFields_ranged `{Runtime} (order_data order_top : list (string * value))
    (m : anyMap) : anyMap * string :=
  let fields : anyMap := ∅ in
  let topic := match index m "topic" with VString tv => tv | _ => "" end in
  let fields :=
    match index m "data" with
    | VMap _ => foldl (fun fields kv => store kv.1 kv.2 fields) fields order_data
    | _ => fields
    end in
  let fields :=
    foldl (fun fields kv => if reserved kv.1 then fields else store kv.1 kv.2 fields)
          fields order_top in
  (fields, topic).

(** ** Vocabulary *)

Definition is_digit (c : ascii) : bool :=
  let n := Z.of_N (N_of_ascii c) in (48 <=? n) && (n <=? 57).

(** The number a decimal literal denotes: [(neg, m, e)] stands for
    [(-1)^neg * m * 10^e], with [m] the digits of the mantissa. Read as
    [strconv] reads a literal: sign, digits with an optional point,
    optional exponent. *)
Definition literal_value (n : string) : option (bool * Z * Z) :=
  match n with
  | EmptyString => None
  | String c s' =>
      let neg := Ascii.eqb c "-" in
      let body := if Ascii.eqb c "+" || neg then s' else n in
      match atof.mantissa body false false 0 0 with
      | None => None
      | Some (m, frac, rest) =>
          match atof.exponent rest with
          | None => None
          | Some e => Some (neg, m, e - frac)
          end
      end
  end.

(** An optional sign followed by one decimal digit or more. *)
Definition integer_literal (n : string) : Prop :=
  exists sign body,
    n = String.append sign body /\
    (sign = "" \/ sign = "+" \/ sign = "-") /\
    body <> "" /\
    forallb is_digit (list_ascii_of_string body) = true.

(* ===================================================================== *)
(** * The gateway: the time-series endpoint and the live stream *)

(** ** package regexp *)

(** Regular expressions over bytes, matched against a whole string with
    Brzozowski derivatives; [Matches] is what a match means. *)
Module regexp.

Inductive re : Type :=
| Void
| Eps
| Class (p : ascii -> bool)
| Seq (r s : re)
| Alt (r s : re)
| Star (r : re).

Fixpoint nullable (r : re) : bool :=
  match r with
  | Void => false
  | Eps => true
  | Class _ => false
  | Seq r s => nullable r && nullable s
  | Alt r s => nullable r || nullable s
  | Star _ => true
  end.

Fixpoint deriv (c : ascii) (r : re) : re :=
  match r with
  | Void => Void
  | Eps => Void
  | Class p => if p c then Eps else Void
  | Seq r s =>
      if nullable r then Alt (Seq (deriv c r) s) (deriv c s)
      else Seq (deriv c r) s
  | Alt r s => Alt (deriv c r) (deriv c s)
  | Star r => Seq (deriv c r) (Star r)
  end.

Fixpoint full_match (r : re) (s : string) : bool :=
  match s with
  | EmptyString => nullable r
  | String c s' => full_match (deriv c r) s'
  end.

Inductive Matches : re -> string -> Prop :=
| MEps : Matches Eps ""
| MClass p c : p c = true -> Matches (Class p) (String c "")
| MSeq r s x y : Matches r x -> Matches s y -> Matches (Seq r s) (String.append x y)
| MAltL r s x : Matches r x -> Matches (Alt r s) x
| MAltR r s x : Matches s x -> Matches (Alt r s) x
| MStar0 r : Matches (Star r) ""
| MStarS r x y : Matches r x -> Matches (Star r) y -> Matches (Star r) (String.append x y).

End regexp.

Module gateway.

Import regexp.

(** The byte 0x22. *)
Definition dq : string := String (ascii_of_nat 34) EmptyString.

(** [c] is one of the bytes of [set]. *)
Definition one_of (set : string) (c : ascii) : bool :=
  existsb (Ascii.eqb c) (list_ascii_of_string set).

(** The pattern [^-\d+[smhdw]$]. It is anchored at both ends, so
    [MatchString] holds exactly of the strings it matches in full. *)
Definition duration_re : re :=
  Seq (Class (one_of "-"))
      (Seq (Seq (Class is_digit) (Star (Class is_digit)))
           (Class (one_of "smhdw"))).

Definition okDur (start : string) : bool := full_match duration_re start.

(** The query parameters, each [""] when absent ([req.URL.Query().Get]). *)
Record Params : Type := {
  q_field : string;
  q_subject : string;
  q_start : string;
  q_window : string
}.

(** A row of a query result: [Time()], [Value()], [ValueByKey("subject")]. *)
Record FluxRecord : Type := {
  r_time : time.Time;
  r_value : value;
  r_subject : value
}.

(** [type point struct { T time.Time; V interface{} }] *)
Record point : Type := {
  T : time.Time;
  V : value
}.

(** [q.Query(ctx, flux)]: an error, or the rows [res.Next()] yields
    followed by what [res.Err()] then reports. *)
Inductive QueryResult : Type :=
| QueryFailed (err : string)
| QueryRows (rows : list FluxRecord) (res_err : option string).

(** The globals [influxClient], [influxOrg], [influxBucket]: the client is
    the function from an organisation and a query text to its result. *)
Record Influx : Type := {
  org : string;
  bucket : string;
  query : string -> string -> QueryResult
}.

(** A response: [http.Error(w, msg, code)], or one of the two JSON
    documents. The series of the second are listed in the order Go ranges
    over the map, which is unspecified. *)
Inductive Response : Type :=
| HttpError (msg : string) (code : Z)
| SubjectJSON (field subject : string) (points : list point)
| SeriesJSON (field : string) (series : list (string * list point)).

(** The text built in [flux]. *)
Definition build_flux (bucket field subject start window : string) : string :=
  let flux :=
    "from(bucket:" +:+ dq +:+ bucket +:+ dq +:+ ") |> range(start:" +:+ start +:+ ")" in
  let flux :=
    flux +:+ " |> filter(fn:(r)=> r._measurement == " +:+ dq +:+ "telemetry" +:+ dq +:+ ")" in
  let flux :=
    flux +:+ " |> filter(fn:(r)=> r._field == " +:+ dq +:+ field +:+ dq +:+ ")" in
  let flux :=
    if negb (String.eqb subject "") then
      flux +:+ " |> filter(fn:(r)=> r.subject == " +:+ dq +:+ subject +:+ dq +:+ ")"
    else flux in
  let flux :=
    if negb (String.eqb window "") && negb (String.eqb field "raw") then
      flux +:+ " |> aggregateWindow(every:" +:+ window +:+ ", fn: mean, createEmpty: false)"
    else flux in
  flux +:+ " |> keep(columns: [" +:+ dq +:+ "_time" +:+ dq +:+ "," +:+ dq +:+ "_value"
       +:+ dq +:+ "," +:+ dq +:+ "subject" +:+ dq +:+ "])".

Definition point_of (r : FluxRecord) : point := {| T := r_time r; V := r_value r |}.

(** [sub, _ := s.(string)] *)
Definition subject_of (r : FluxRecord) : string :=
  match r_subject r with
  | VString s => s
  | _ => ""
  end.

(** The loop [m[sub] = append(m[sub], point{...})] over the rows. *)
Definition group (rows : list FluxRecord) : gmap string (list point) :=
  foldl (fun m r =>
           let sub := subject_of r in
           <[sub := match m !! sub with Some pts => pts | None => [] end ++ [point_of r]]> m)
        ∅ rows.

(** The handler of [GET /api/ts]; [influx] is [None] when
    [influxClient == nil]. *)
Definition api_ts (influx : option Influx) (q : Params) : Response :=
  match influx with
  | None => HttpError "influx not configured" 501
  | Some db =>
      let field := q_field q in
      let field := if String.eqb field "" then "raw" else field in
      let subject := q_subject q in
      let start := q_start q in
      let start := if String.eqb start "" then "-15m" else start in
      let window := q_window q in
      if negb (okDur start) && negb (strings.Contains start "T") then
        HttpError "bad 'start' (use -15m or RFC3339 time)" 400
      else
        let flux := build_flux (bucket db) field subject start window in
        match query db (org db) flux with
        | QueryFailed err => HttpError err 500
        | QueryRows rows res_err =>
            if negb (String.eqb subject "") then
              let points := map point_of rows in
              match res_err with
              | Some err => HttpError err 500
              | None => SubjectJSON field subject points
              end
            else
              let m := group rows in
              match res_err with
              | Some err => HttpError err 500
              | None => SeriesJSON field (map_to_list m)
              end
        end
  end.

(** One turn of the loop of [GET /ws]: [sub.NextMsg] failed (a timeout or
    any other error), or it delivered a message and [c.WriteMessage]
    answered. *)
Inductive ws_turn : Type :=
| NextMsgError (err : string)
| Delivered (data : string) (written_ok : bool).

(** The loop over the turns the surroundings supply: the frames handed to
    [WriteMessage], and whether the handler has returned. *)
Fixpoint ws_loop (turns : list ws_turn) : list string * bool :=
  match turns with
  | [] => ([], false)
  | NextMsgError _ :: rest => ws_loop rest
  | Delivered data true :: rest =>
      let '(frames, returned) := ws_loop rest in (data :: frames, returned)
  | Delivered data false :: _ => ([data], true)
  end.

(** The frame a turn hands to [WriteMessage], if any. *)
Definition frame_of (t : ws_turn) : option string :=
  match t with
  | Delivered data _ => Some data
  | NextMsgError _ => None
  end.

(** A negative duration: a minus sign, one digit or more, a unit. *)
Definition duration_form (s : string) : Prop :=
  exists ds u, s = String "-" (String.append ds (String u "")) /\
               ds <> "" /\ forallb is_digit (list_ascii_of_string ds) = true /\
               one_of "smhdw" u = true.

End gateway.

(* ===================================================================== *)
(** * Requests and settings to compute with *)

Module MoreScenario.

Import gateway.

(** The arm message delivered again, half a minute later. *)
Definition env_A_again : Env :=
  {| clock_entry := Scenario.now + 30 * time.Second;
     metadata := Some Scenario.receipt;
     decoded := Some Scenario.decoded_A;
     clock_check := Scenario.now + 30 * time.Second + 1000 |}.

(** Scenario B without its override. *)
Definition decoded_B_unstamped : anyMap := {[ "v" := VBool true ]}.

(** An environment that configures the broker only. *)
Definition environ_dry : gmap string string := {[ "NATS_URL" := "nats://broker:4222" ]}.

Definition client_accepting : InfluxClient := fun _ _ _ _ => Scenario.sink_accepting.

(** Rows of two robots, and a row without a subject tag. *)
Definition row (t : Z) (v : string) (s : value) : FluxRecord :=
  {| r_time := time.Unix t 0; r_value := VNumber v; r_subject := s |}.

Definition rows : list FluxRecord :=
  [ row 1 "10" (VString "telemetry.arm1");
    row 2 "20" (VString "telemetry.arm2");
    row 3 "11" (VString "telemetry.arm1");
    row 4 "0" VNil ].

Definition db : Influx :=
  {| org := "r4f"; bucket := "telemetry_raw"; query := fun _ _ => QueryRows rows None |}.

Definition turns : list ws_turn :=
  [ NextMsgError "nats: timeout"; Delivered "a" true;
    NextMsgError "nats: connection closed"; Delivered "b" true ].

(** A delivery whose payload is [{"ts_ns": lit}]. *)
Definition payload_stamped (lit : string) : string :=
  "{" +:+ Scenario.q "ts_ns" +:+ ": " +:+ lit +:+ "}".
Definition env_stamped (lit : string) : Env :=
  Scenario.env_of (Some Scenario.receipt) (Some {[ "ts_ns" := VNumber lit ]}).

(** [{"raw": 1e999}] *)
Definition payload_raw_huge : string := "{" +:+ Scenario.q "raw" +:+ ": 1e999}".
Definition decoded_raw_huge : anyMap := {[ "raw" := VNumber "1e999" ]}.
Definition env_raw_huge : Env :=
  Scenario.env_of (Some Scenario.receipt) (Some decoded_raw_huge).

(** US Eastern time as far as the scenario needs it: UTC-4 during the
    daylight period of 2015 (8 March 07:00Z to 1 November 06:00Z), UTC-5
    otherwise. *)
Definition edt_2015_start : time.Time :=
  time.days_from_civil 2015 3 8 * time.nanos_per_day + 7 * time.Hour.
Definition edt_2015_end : time.Time :=
  time.days_from_civil 2015 11 1 * time.nanos_per_day + 6 * time.Hour.
Definition eastern : time.Location :=
  fun t => if (edt_2015_start <=? t) && (t <? edt_2015_end)
           then - (4 * time.Hour) else - (5 * time.Hour).

(** 2025-03-08 12:00 EST. *)
Definition noon_eastern : time.Time :=
  time.days_from_civil 2025 3 8 * time.nanos_per_day + 17 * time.Hour.

End MoreScenario.

(* ===================================================================== *)
(** * Library facts *)

Section StringFacts.

Lemma HasPrefix_spec (s p : string) :
  strings.HasPrefix s p = true <-> exists post, s = String.append p post.
Proof.
  revert s. induction p as [|c p IH]; intros s; simpl.
  - split; [intros _; exists s; reflexivity | reflexivity].
  - destruct s as [|d s]; simpl.
    + split; [discriminate | intros [post Hpost]; discriminate].
    + rewrite andb_true_iff, IH, Ascii.eqb_eq. split.
      * intros [-> [post ->]]. exists post. reflexivity.
      * intros [post Hpost]. injection Hpost as -> ->. eauto.
Qed.

Lemma Contains_spec (s sub : string) :
  strings.Contains s sub = true <->
  exists pre post, s = String.append pre (String.append sub post).
Proof.
  induction s as [|c s IH].
  - cbn [strings.Contains]. rewrite orb_false_r, HasPrefix_spec. split.
    + intros [post Hpost]. exists EmptyString, post. exact Hpost.
    + intros [[|d pre] [post Hpost]]; [exists post; exact Hpost | discriminate].
  - cbn [strings.Contains]. rewrite orb_true_iff, HasPrefix_spec, IH. split.
    + intros [[post Hpost] | [pre [post Hpost]]].
      * exists EmptyString, post. exact Hpost.
      * exists (String c pre), post. simpl. rewrite Hpost. reflexivity.
    + intros [[|d pre] [post Hpost]].
      * left. exists post. exact Hpost.
      * right. simpl in Hpost. injection Hpost as -> ->. eauto.
Qed.

(** The digit loop rejects a string that holds a point. *)
Lemma digits_point (s : string) (acc : Z) :
  strings.Contains s "." = true -> strconv.digits s acc = None.
Proof.
  revert acc. induction s as [|c s IH]; intros acc H.
  - discriminate.
  - cbn [strings.Contains] in H. simpl.
    destruct (strconv.digit_of c) as [d|] eqn:Hd; [|reflexivity].
    apply IH. apply orb_true_iff in H as [H | H]; [|exact H].
    exfalso. simpl in H. destruct (Ascii.eqb_spec c ".") as [->|]; [|discriminate].
    vm_compute in Hd. discriminate.
Qed.

Lemma ParseUint_point (s : string) :
  strings.Contains s "." = true -> strconv.ParseUint s = strconv.Err strconv.ErrSyntax.
Proof.
  intros H. unfold strconv.ParseUint. rewrite (digits_point s 0 H).
  destruct s; reflexivity.
Qed.

(** [Int64()] fails on a literal with a fractional part. *)
Lemma ParseInt_fraction (n : string) :
  has_fraction n = true -> strconv.ParseInt n = strconv.Err strconv.ErrSyntax.
Proof.
  unfold has_fraction. intros H. destruct n as [|c n]; [discriminate|].
  unfold strconv.ParseInt.
  assert (Hbody : strings.Contains
            (if Ascii.eqb c "+" || Ascii.eqb c "-" then n else String c n) "." = true).
  { destruct (Ascii.eqb c "+" || Ascii.eqb c "-") eqn:Hs; [|exact H].
    cbn [strings.Contains] in H. apply orb_true_iff in H as [H | H]; [|exact H].
    exfalso. simpl in H. destruct (Ascii.eqb_spec c ".") as [->|]; [|discriminate].
    discriminate. }
  rewrite (ParseUint_point _ Hbody). reflexivity.
Qed.

Lemma digits_nonneg (s : string) (acc un : Z) :
  0 <= acc -> strconv.digits s acc = Some un -> 0 <= un.
Proof.
  revert acc. induction s as [|d s IH]; intros acc Hacc; simpl.
  - intros [= <-]. exact Hacc.
  - unfold strconv.digit_of.
    destruct (_ && _) eqn:Hc; [|discriminate].
    apply andb_true_iff in Hc as [Hc1 Hc2]. apply IH. lia.
Qed.

Lemma ParseUint_range (s : string) (un : Z) :
  strconv.ParseUint s = strconv.Ok un -> 0 <= un <= 2 ^ 64 - 1.
Proof.
  unfold strconv.ParseUint. destruct s as [|c s]; [discriminate|].
  destruct (strconv.digits (String c s) 0) as [u|] eqn:Hd; [|discriminate].
  apply digits_nonneg in Hd; [|lia].
  destruct (u <=? 2 ^ 64 - 1) eqn:Hle; [|discriminate].
  intros [= <-]. lia.
Qed.

(** A successful [ParseInt] yields an int64. *)
Lemma ParseInt_range (s : string) (z : Z) :
  strconv.ParseInt s = strconv.Ok z -> Int64.in_range z.
Proof.
  unfold strconv.ParseInt, Int64.in_range, Int64.min_int, Int64.max_int.
  destruct s as [|c s]; [discriminate|].
  destruct (strconv.ParseUint _) as [un|e] eqn:Hu; [|discriminate].
  apply ParseUint_range in Hu.
  destruct (Ascii.eqb c "-"); simpl.
  - destruct (2 ^ 63 <? un) eqn:Hlt; [discriminate|]. intros [= <-]. lia.
  - destruct (2 ^ 63 <=? un) eqn:Hle; [discriminate|]. intros [= <-]. lia.
Qed.

End StringFacts.

(** The library models at a few known points. *)
Section LibraryChecks.

Example ParseInt_max :
  strconv.ParseInt "9223372036854775807" = strconv.Ok Int64.max_int /\
  strconv.ParseInt "9223372036854775808" = strconv.Err strconv.ErrRange /\
  strconv.ParseInt "-9223372036854775808" = strconv.Ok Int64.min_int.
Proof. vm_compute. repeat split. Qed.

Example ParseInt_not_integers :
  strconv.ParseInt "" = strconv.Err strconv.ErrSyntax /\
  strconv.ParseInt "-" = strconv.Err strconv.ErrSyntax /\
  strconv.ParseInt "1e3" = strconv.Err strconv.ErrSyntax /\
  strconv.ParseInt "1.0" = strconv.Err strconv.ErrSyntax.
Proof. vm_compute. repeat split. Qed.

(** 1.5 = 0x18000000000000 * 2^-52; 0.1 rounds to 0x1999999999999a * 2^-56. *)
Example ParseFloat_exact_and_rounded :
  atof.ParseFloat_decimal "1.5" = strconv.Ok (S754_finite false 6755399441055744 (-52)) /\
  atof.ParseFloat_decimal "0.1" = strconv.Ok (S754_finite false 7205759403792794 (-56)) /\
  atof.ParseFloat_decimal "-0" = strconv.Ok (S754_zero true).
Proof. vm_compute. repeat split. Qed.

(** The largest float64, and the first literal that overflows. *)
Example ParseFloat_range :
  atof.ParseFloat_decimal "1.7976931348623157e308"
    = strconv.Ok (S754_finite false 9007199254740991 971) /\
  atof.ParseFloat_decimal "1.7976931348623159e308" = strconv.Err strconv.ErrRange /\
  atof.ParseFloat_decimal "1e999" = strconv.Err strconv.ErrRange /\
  atof.ParseFloat_decimal "1e-999" = strconv.Ok (S754_zero false).
Proof. vm_compute. repeat split. Qed.

(** 2024-02-29 minus ten years normalises to 2014-03-01. *)
Example AddDate_leap_day :
  time.civil_from_days
    (time.AddDate_utc (time.days_from_civil 2024 2 29 * time.nanos_per_day + 5) (-10) 0 0
     / time.nanos_per_day) = (2014, 3, 1) /\
  time.AddDate_utc (time.days_from_civil 2024 2 29 * time.nanos_per_day + 5) (-10) 0 0
    mod time.nanos_per_day = 5.
Proof. vm_compute. repeat split. Qed.

Example Unix_epoch_dates :
  time.civil_from_days 0 = (1970, 1, 1) /\
  time.days_from_civil 2000 3 1 = 11017 /\
  time.civil_from_days 11017 = (2000, 3, 1).
Proof. vm_compute. repeat split. Qed.

End LibraryChecks.

(* ===================================================================== *)
(** * Facts about the worker's functions *)

Section WorkerFacts.

Context `{rt : Runtime}.

Lemma bad_timestamp_false (now ts : time.Time) :
  bad_timestamp now ts = false <-> in_window now ts.
Proof.
  unfold bad_timestamp, in_window, time.Before, time.After, time.Add.
  rewrite orb_false_iff, !Z.ltb_ge. reflexivity.
Qed.

Lemma bad_timestamp_true (now ts : time.Time) :
  bad_timestamp now ts = true <-> ~ in_window now ts.
Proof.
  rewrite <- bad_timestamp_false. destruct (bad_timestamp now ts); split; congruence.
Qed.

(** Ranging over a map while storing the usable members, except under
    the keys [skip] holds of: a key of the map that yields a field
    overrides the accumulator, every other key keeps what it had. *)
Lemma fold_store_lookup (skip : string -> bool) (m acc : gmap string value) (k : string) :
  map_fold (fun k v fields => if skip k then fields else store k v fields) acc m !! k =
  match (if skip k then None else m !! k ≫= field_of) with
  | Some x => Some x
  | None => acc !! k
  end.
Proof.
  revert k.
  apply (map_fold_weak_ind
           (fun r (m : gmap string value) => forall k,
                r !! k = match (if skip k then None else m !! k ≫= field_of) with
                         | Some x => Some x
                         | None => acc !! k
                         end)).
  - intros k. rewrite lookup_empty. destruct (skip k); reflexivity.
  - intros i x m' r Hi IH k.
    destruct (decide (k = i)) as [->|Hne].
    + rewrite lookup_insert_eq. specialize (IH i). rewrite Hi in IH. simpl.
      destruct (skip i); [exact IH|].
      unfold store. destruct (field_of x) as [y|]; [apply lookup_insert_eq | exact IH].
    + rewrite lookup_insert_ne by congruence.
      destruct (skip i).
      * apply IH.
      * unfold store. destruct (field_of x) as [y|]; [|apply IH].
        rewrite lookup_insert_ne by congruence. apply IH.
Qed.

(** Go ranges over a map in an unspecified order. Each iteration writes
    under its own key only, so the loops of [extractFields] end with the
    same field set in whatever order the members come: [map_fold] stands
    for all of them. *)
Lemma range_any_order (skip : string -> bool) (m acc : gmap string value)
    (l : list (string * value)) :
  l ≡ₚ map_to_list m ->
  foldr (uncurry (fun k v fields => if skip k then fields else store k v fields)) acc l =
  map_fold (fun k v fields => if skip k then fields else store k v fields) acc m.
Proof.
  intros Hl. rewrite map_fold_foldr. symmetry.
  apply (foldr_permutation (=) _ acc (map_to_list m) l); [|symmetry; exact Hl].
  clear l Hl. intros j1 [k1 v1] j2 [k2 v2] b Hj H1 H2. simpl.
  assert (Hk : k1 <> k2).
  { intros ->. apply Hj.
    apply (NoDup_lookup _ j1 j2 k2 (NoDup_fst_map_to_list m));
      rewrite list_lookup_fmap; [rewrite H1 | rewrite H2]; reflexivity. }
  destruct (skip k1), (skip k2); try reflexivity.
  unfold store. destruct (field_of v1), (field_of v2); try reflexivity.
  apply insert_insert_ne. exact Hk.
Qed.

Lemma index_data_of (m : gmap string value) :
  match index m "data" with VMap dv => dv | _ => ∅ end = data_of m.
Proof. unfold index, data_of. destruct (m !! "data") as [[]|]; reflexivity. Qed.

(** The field set of [extractFields], key by key. *)
Lemma extractFields_lookup (m : gmap string value) (k : string) :
  (extractFields m).1 !! k =
  match (if reserved k then None else m !! k ≫= field_of) with
  | Some x => Some x
  | None => data_of m !! k ≫= field_of
  end.
Proof.
  unfold extractFields. cbn [fst]. rewrite fold_store_lookup.
  destruct (if reserved k then None else m !! k ≫= field_of) as [x|]; [reflexivity|].
  rewrite <- index_data_of.
  destruct (index m "data") as [| | | | | | |dv]; try (rewrite lookup_empty; reflexivity).
  rewrite (fold_store_lookup (fun _ => false) dv ∅ k), lookup_empty.
  destruct (dv !! k ≫= field_of); reflexivity.
Qed.

(** What [extractFields] stores is a [float64] or a [bool]. *)
Lemma field_of_scalar (v x : value) :
  field_of v = Some x -> (exists f, x = VFloat64 f) \/ (exists b, x = VBool b).
Proof.
  destruct v; simpl; try discriminate.
  - intros [= <-]. eauto.
  - destruct (Number.Float64 n); [|discriminate]. intros [= <-]. eauto.
  - intros [= <-]. eauto.
Qed.

Lemma extractFields_scalar (m : gmap string value) (k : string) (x : value) :
  (extractFields m).1 !! k = Some x ->
  (exists f, x = VFloat64 f) \/ (exists b, x = VBool b).
Proof.
  rewrite extractFields_lookup.
  destruct (reserved k); simpl.
  - destruct (data_of m !! k) as [v|]; [apply field_of_scalar | discriminate].
  - destruct (m !! k) as [v|]; simpl.
    + destruct (field_of v) as [y|] eqn:Hy.
      * intros [= <-]. eapply field_of_scalar, Hy.
      * destruct (data_of m !! k) as [v'|]; [apply field_of_scalar | discriminate].
    + destruct (data_of m !! k) as [v'|]; [apply field_of_scalar | discriminate].
Qed.

Lemma point_fields_eq (msg : Msg) (env : Env) :
  point_fields msg env = <["raw" := VString (Data msg)]> (extractFields (parsed env)).1.
Proof. reflexivity. Qed.

Lemma point_tags_eq (msg : Msg) (env : Env) :
  point_tags msg env =
  let topic := (extractFields (parsed env)).2 in
  if String.eqb topic "" then {[ "subject" := Subject msg ]}
  else <["topic" := topic]> {[ "subject" := Subject msg ]}.
Proof. reflexivity. Qed.

(** The handler in terms of its stages. *)
Lemma handler_stages (write : option Sink) (msg : Msg) (env : Env) :
  handler write msg env =
  let ts := resolve_ts env in
  if bad_timestamp (clock_check env) ts then
    [LogDropBadTimestamp ts (Subject msg); Ack]
  else
    match write with
    | Some w =>
        let p := NewPoint "telemetry" (point_tags msg env) (point_fields msg env) ts in
        WritePoint p ::
        match w p with
        | Some err =>
            if unsalvageable err then [LogDropUnsalvageable ts err; Ack]
            else [LogWriteError err; Nak]
        | None => [Ack]
        end
    | None => [PrintTelemetry (Subject msg) ts (Data msg); Ack]
    end.
Proof.
  unfold handler, point_fields, point_tags. cbn zeta.
  fold (parsed env). fold (default_ts env). fold (resolve_ts env).
  fold (bad_timestamp (clock_check env) (resolve_ts env)).
  destruct (extractFields (parsed env)) as [fs topic]. reflexivity.
Qed.

(** The traces of the handler, path by path. *)
Lemma handler_dropped (write : option Sink) (msg : Msg) (env : Env) :
  bad_timestamp (clock_check env) (resolve_ts env) = true ->
  handler write msg env = [LogDropBadTimestamp (resolve_ts env) (Subject msg); Ack].
Proof. rewrite handler_stages. cbn zeta. intros ->. reflexivity. Qed.

Lemma handler_built (write : option Sink) (msg : Msg) (env : Env) :
  bad_timestamp (clock_check env) (resolve_ts env) = false ->
  handler write msg env =
  let ts := resolve_ts env in
  match write with
  | Some w =>
      let p := NewPoint "telemetry" (point_tags msg env) (point_fields msg env) ts in
      WritePoint p ::
      match w p with
      | Some err =>
          if unsalvageable err then [LogDropUnsalvageable ts err; Ack]
          else [LogWriteError err; Nak]
      | None => [Ack]
      end
  | None => [PrintTelemetry (Subject msg) ts (Data msg); Ack]
  end.
Proof. rewrite handler_stages. cbn zeta. intros ->. reflexivity. Qed.

(** A point the handler submits is the one it built, and was built for
    a timestamp that passed the check. *)
Lemma written_inv (write : option Sink) (msg : Msg) (env : Env) (p : Point) :
  In p (written (handler write msg env)) ->
  bad_timestamp (clock_check env) (resolve_ts env) = false /\
  p = NewPoint "telemetry" (point_tags msg env) (point_fields msg env) (resolve_ts env).
Proof.
  destruct (bad_timestamp (clock_check env) (resolve_ts env)) eqn:Hbad.
  - rewrite handler_dropped by exact Hbad. intros [].
  - rewrite handler_built by exact Hbad. cbn zeta.
    destruct write as [w|]; [|intros []].
    set (p0 := NewPoint _ _ _ _).
    assert (Hw : written (WritePoint p0 ::
                   match w p0 with
                   | Some err => if unsalvageable err
                                 then [LogDropUnsalvageable (resolve_ts env) err; Ack]
                                 else [LogWriteError err; Nak]
                   | None => [Ack]
                   end) = [p0]).
    { destruct (w p0) as [err|]; [destruct (unsalvageable err)|]; reflexivity. }
    rewrite Hw. intros [<- | []]. split; reflexivity.
Qed.

Lemma unsalvageable_spec (err : string) :
  unsalvageable err = true <->
  (exists pre post, err = String.append pre (String.append "outside retention policy" post)) \/
  (exists pre post, err = String.append pre (String.append "unprocessable entity" post)).
Proof. unfold unsalvageable. rewrite orb_true_iff, !Contains_spec. reflexivity. Qed.

End WorkerFacts.

Section ArithFacts.

Lemma wrap_small (z : Z) : Int64.in_range z -> Int64.wrap z = z.
Proof.
  unfold Int64.in_range, Int64.min_int, Int64.max_int, Int64.wrap. intros Hz.
  rewrite Z.mod_small; lia.
Qed.

Lemma spec_band_cases (v : Z) :
  (spec_band v = Nanoseconds <-> 10 ^ 17 <= v) /\
  (spec_band v = Microseconds <-> 10 ^ 14 <= v < 10 ^ 17) /\
  (spec_band v = Milliseconds <-> 10 ^ 11 <= v < 10 ^ 14) /\
  (spec_band v = Seconds <-> v < 10 ^ 11).
Proof.
  unfold spec_band.
  destruct (Z.leb_spec (10 ^ 17) v); [|destruct (Z.leb_spec (10 ^ 14) v);
    [|destruct (Z.leb_spec (10 ^ 11) v)]];
    repeat split; intros; try discriminate; try reflexivity; lia.
Qed.

End ArithFacts.

Section HandlerFacts.

Context `{rt : Runtime}.

Lemma handler_written (w : Sink) (msg : Msg) (env : Env) :
  bad_timestamp (clock_check env) (resolve_ts env) = false ->
  written (handler (Some w) msg env) =
  [NewPoint "telemetry" (point_tags msg env) (point_fields msg env) (resolve_ts env)].
Proof.
  intros Hbad. rewrite handler_built by exact Hbad. cbn zeta.
  destruct (w _) as [err|]; [destruct (unsalvageable err)|]; reflexivity.
Qed.

(** A value that is neither a number nor a boolean yields no field and
    no integer. *)
Lemma not_scalar (v : value) :
  is_numeric v = false -> is_boolean v = false ->
  field_of v = None /\ asInt64 v = (0, false).
Proof. destruct v; simpl; intros; try discriminate; split; reflexivity. Qed.

Lemma resolve_ts_no_int (env : Env) :
  snd (asInt64 (index (parsed env) "ts_ns")) = false -> resolve_ts env = default_ts env.
Proof.
  unfold resolve_ts. destruct (asInt64 _) as [v [|]]; simpl; [discriminate | reflexivity].
Qed.

Lemma resolve_ts_nonpos (env : Env) (z : Z) (b : bool) :
  asInt64 (index (parsed env) "ts_ns") = (z, b) -> z <= 0 ->
  resolve_ts env = default_ts env.
Proof.
  unfold resolve_ts. intros -> Hz. destruct b; [|reflexivity].
  destruct (Z.ltb_spec 0 z); [lia | reflexivity].
Qed.

Lemma resolve_ts_override (env : Env) (z : Z) :
  asInt64 (index (parsed env) "ts_ns") = (z, true) -> 0 < z ->
  resolve_ts env = unixAnyToTime z.
Proof.
  unfold resolve_ts. intros -> Hz.
  destruct (Z.ltb_spec 0 z); [reflexivity | lia].
Qed.

(** A payload without [data] whose top-level values are all neither
    numbers nor booleans has no field to extract. *)
Lemma extractFields_none (m : gmap string value) :
  m !! "data" = None ->
  (forall k v, m !! k = Some v -> is_numeric v = false /\ is_boolean v = false) ->
  (extractFields m).1 = ∅.
Proof.
  intros Hdata Hm. apply map_eq. intros k.
  rewrite extractFields_lookup, lookup_empty.
  unfold data_of. rewrite Hdata, lookup_empty. simpl.
  destruct (reserved k); [reflexivity|].
  destruct (m !! k) as [v|] eqn:Hk; [|reflexivity]. simpl.
  destruct (Hm k v Hk) as [Hn Hb].
  destruct (not_scalar v Hn Hb) as [-> _]. reflexivity.
Qed.

End HandlerFacts.

Section LiteralFacts.

(** On a string of digits the mantissa loop reads what the digit loop of
    [ParseUint] reads, and leaves nothing. *)
Lemma mantissa_digits (s : string) (acc r : Z) (sawdigits : bool) :
  strconv.digits s acc = Some r ->
  s <> "" \/ sawdigits = true ->
  atof.mantissa s false sawdigits acc 0 = Some (r, 0, "").
Proof.
  revert acc sawdigits. induction s as [|c s IH]; intros acc sawdigits Hd Hs.
  - simpl in Hd. injection Hd as <-. destruct Hs as [Hs | ->]; [congruence | reflexivity].
  - simpl in Hd. simpl.
    destruct (strconv.digit_of c) as [d|] eqn:Hc; [|discriminate].
    destruct (Ascii.eqb_spec c ".") as [->|_]; [vm_compute in Hc; discriminate|].
    apply IH; [exact Hd | right; reflexivity].
Qed.

(** What [ParseInt] accepts denotes the integer it returns. *)
Lemma ParseInt_literal_value (n : string) (z : Z) :
  strconv.ParseInt n = strconv.Ok z ->
  exists neg un,
    literal_value n = Some (neg, un, 0) /\ z = (if neg then - un else un) /\ 0 <= un.
Proof.
  unfold strconv.ParseInt, literal_value. destruct n as [|c n]; [discriminate|]. cbn zeta.
  set (body := if Ascii.eqb c "+" || Ascii.eqb c "-" then n else String c n).
  destruct (strconv.ParseUint body) as [un|e] eqn:Hu; [|discriminate].
  pose proof (ParseUint_range body un Hu) as Hun.
  assert (Hm : atof.mantissa body false false 0 0 = Some (un, 0, "")).
  { unfold strconv.ParseUint in Hu. destruct body as [|d b] eqn:Hb; [discriminate|].
    destruct (strconv.digits (String d b) 0) as [r|] eqn:Hd; [|discriminate].
    destruct (r <=? 2 ^ 64 - 1); [|discriminate]. injection Hu as ->.
    apply mantissa_digits; [exact Hd | left; discriminate]. }
  rewrite Hm. cbn [atof.exponent]. intros Hz.
  exists (Ascii.eqb c "-"), un. split; [reflexivity|]. split; [|lia].
  destruct (negb (Ascii.eqb c "-") && (2 ^ 63 <=? un)); [discriminate|].
  destruct (Ascii.eqb c "-" && (2 ^ 63 <? un)); [discriminate|].
  injection Hz as <-. reflexivity.
Qed.

End LiteralFacts.

(* ===================================================================== *)
(** * Properties of the worker *)

Section Properties.

Context `{rt : Runtime}.

(** C1. A message whose resolved timestamp lies outside the window
    [now - 10 years, now + 24 hours] is logged and acknowledged, and the
    handler returns: no record is built and the sink is not called.
    Conversely every point that reaches the sink carries a timestamp
    inside the window. *)
Theorem out_of_window_dropped (write : option Sink) (msg : Msg) (env : Env) :
  (~ in_window (clock_check env) (resolve_ts env) ->
   handler write msg env = [LogDropBadTimestamp (resolve_ts env) (Subject msg); Ack] /\
   written (handler write msg env) = [] /\
   signals (handler write msg env) = [Ack]) /\
  (forall p, In p (written (handler write msg env)) ->
             in_window (clock_check env) (timestamp p)).
Proof.
  split.
  - intros Hout. apply bad_timestamp_true in Hout.
    rewrite (handler_dropped write msg env Hout). repeat split.
  - intros p Hp. apply written_inv in Hp as [Hok ->].
    apply bad_timestamp_false. exact Hok.
Qed.

(** The bands as the code takes them. A positive override value V is
    classified by the inequalities of the boundary rule: V >= 1e17 is taken as nanoseconds, 1e14 <= V <
    1e17 as microseconds (V times 1000), 1e11 <= V < 1e14 as
    milliseconds (V times 1e6), V < 1e11 as seconds. The products are
    int64 products; whenever V in nanoseconds fits an int64 the resolved
    instant is exactly V units after the epoch. At the edge, 1e17 - 1
    takes the microsecond branch and 1e17 the nanosecond branch. *)
Theorem override_bands (V : Z) :
  0 < V ->
  unixAnyToTime V =
    match spec_band V with
    | Nanoseconds => time.Unix 0 V
    | Microseconds => time.Unix 0 (Int64.mul V 1000)
    | Milliseconds => time.Unix 0 (Int64.mul V 1000000)
    | Seconds => time.Unix V 0
    end /\
  ((spec_band V = Nanoseconds <-> 10 ^ 17 <= V) /\
   (spec_band V = Microseconds <-> 10 ^ 14 <= V < 10 ^ 17) /\
   (spec_band V = Milliseconds <-> 10 ^ 11 <= V < 10 ^ 14) /\
   (spec_band V = Seconds <-> V < 10 ^ 11)) /\
  (V * band_factor (spec_band V) <= Int64.max_int ->
   unixAnyToTime V = V * band_factor (spec_band V)) /\
  (forall env, asInt64 (index (parsed env) "ts_ns") = (V, true) ->
               resolve_ts env = unixAnyToTime V) /\
  (spec_band (10 ^ 17 - 1) = Microseconds /\
   unixAnyToTime (10 ^ 17 - 1) = time.Unix 0 (Int64.mul (10 ^ 17 - 1) 1000)) /\
  (spec_band (10 ^ 17) = Nanoseconds /\
   unixAnyToTime (10 ^ 17) = time.Unix 0 (10 ^ 17)).
Proof.
  intros Hpos.
  assert (Hcode : unixAnyToTime V =
    match spec_band V with
    | Nanoseconds => time.Unix 0 V
    | Microseconds => time.Unix 0 (Int64.mul V 1000)
    | Milliseconds => time.Unix 0 (Int64.mul V 1000000)
    | Seconds => time.Unix V 0
    end).
  { unfold unixAnyToTime, spec_band.
    change (10 ^ 17) with 100000000000000000.
    change (10 ^ 14) with 100000000000000.
    change (10 ^ 11) with 100000000000.
    destruct (100000000000000000 <=? V); [reflexivity|].
    destruct (100000000000000 <=? V); [reflexivity|].
    destruct (100000000000 <=? V); reflexivity. }
  split; [exact Hcode|]. split; [apply spec_band_cases|].
  split; [|split; [|split; split; reflexivity]].
  - rewrite Hcode. unfold Int64.max_int, time.Unix, Int64.mul.
    destruct (spec_band V); cbn [band_factor]; intros Hfit.
    + lia.
    + rewrite wrap_small; [lia|]. unfold Int64.in_range, Int64.min_int, Int64.max_int. lia.
    + rewrite wrap_small; [lia|]. unfold Int64.in_range, Int64.min_int, Int64.max_int. lia.
    + lia.
  - intros env Hv. apply (resolve_ts_override env V Hv Hpos).
Qed.

(** C3. When the sink write fails, the failure counts as permanent
    exactly when the error text contains "outside retention policy" or
    "unprocessable entity". A permanent failure is logged as a drop and
    acknowledged; any other failure is logged as a retry and negatively
    acknowledged, never acknowledged. *)
Theorem write_failure_classified (w : Sink) (msg : Msg) (env : Env) (err : string) :
  in_window (clock_check env) (resolve_ts env) ->
  w (NewPoint "telemetry" (point_tags msg env) (point_fields msg env) (resolve_ts env))
    = Some err ->
  let p := NewPoint "telemetry" (point_tags msg env) (point_fields msg env) (resolve_ts env) in
  let permanent :=
    (exists pre post, err = String.append pre (String.append "outside retention policy" post)) \/
    (exists pre post, err = String.append pre (String.append "unprocessable entity" post)) in
  (permanent ->
   handler (Some w) msg env = [WritePoint p; LogDropUnsalvageable (resolve_ts env) err; Ack]) /\
  (~ permanent ->
   handler (Some w) msg env = [WritePoint p; LogWriteError err; Nak]).
Proof.
  intros Hwin Herr p permanent.
  apply bad_timestamp_false in Hwin.
  rewrite (handler_built (Some w) msg env Hwin). subst p. cbn zeta. rewrite Herr.
  pose proof (unsalvageable_spec err) as Hspec. fold permanent in Hspec.
  destruct (unsalvageable err); split; intros Hp.
  - reflexivity.
  - exfalso. apply Hp, Hspec. reflexivity.
  - apply Hspec in Hp. discriminate.
  - reflexivity.
Qed.

(** C4. On every control path the handler issues exactly one
    acknowledgment signal, an Ack or a Nak, as its last action: never
    none, never two. A decode failure does not end the run: the handler
    goes on as it does for a payload without members. *)
Theorem one_signal_per_delivery (write : option Sink) (msg : Msg) (env : Env) :
  (signals (handler write msg env) = [Ack] \/ signals (handler write msg env) = [Nak]) /\
  (exists pre s, handler write msg env = pre ++ [s] /\ is_signal s = true /\ signals pre = []) /\
  (decoded env = None ->
   handler write msg env =
   handler write msg {| clock_entry := clock_entry env; metadata := metadata env;
                        decoded := Some ∅; clock_check := clock_check env |}).
Proof.
  split; [|split].
  - destruct (bad_timestamp (clock_check env) (resolve_ts env)) eqn:Hbad.
    + rewrite handler_dropped by exact Hbad. left. reflexivity.
    + rewrite handler_built by exact Hbad. cbn zeta.
      destruct write as [w|]; [|left; reflexivity].
      destruct (w _) as [err|]; [destruct (unsalvageable err)|];
        [left | right | left]; reflexivity.
  - destruct (bad_timestamp (clock_check env) (resolve_ts env)) eqn:Hbad.
    + rewrite handler_dropped by exact Hbad.
      exists [LogDropBadTimestamp (resolve_ts env) (Subject msg)], Ack. repeat split.
    + rewrite handler_built by exact Hbad. cbn zeta.
      destruct write as [w|].
      * set (p := NewPoint _ _ _ _).
        destruct (w p) as [err|]; [destruct (unsalvageable err)|].
        -- exists [WritePoint p; LogDropUnsalvageable (resolve_ts env) err], Ack. repeat split.
        -- exists [WritePoint p; LogWriteError err], Nak. repeat split.
        -- exists [WritePoint p], Ack. repeat split.
      * exists [PrintTelemetry (Subject msg) (resolve_ts env) (Data msg)], Ack. repeat split.
  - intros Hdec. destruct env as [c0 md dec c1]. simpl in Hdec. subst dec. reflexivity.
Qed.

(** C5 (amended). Field extraction copies into the output exactly the
    top-level members whose key is not one of data, topic, trace_id,
    ts_ns and whose value is a boolean or a number that converts to
    float64 without error (a number is stored as that float64), plus
    such members of the nested data mapping. A number whose conversion
    fails is left out like the strings, objects, arrays and nulls. A
    top-level member that is copied keeps its value whatever the nested
    mapping holds under the same name. *)
Theorem extractFields_exact (m : gmap string value) :
  (forall v x, field_of v = Some x <->
     (exists b, v = VBool b /\ x = VBool b) \/
     (exists f, v = VFloat64 f /\ x = VFloat64 f) \/
     (exists n f, v = VNumber n /\ Number.Float64 n = strconv.Ok f /\ x = VFloat64 f)) /\
  (forall k, reserved k = true <->
     k = "data" \/ k = "topic" \/ k = "trace_id" \/ k = "ts_ns") /\
  (forall k v x, m !! k = Some v -> reserved k = false -> field_of v = Some x ->
     (extractFields m).1 !! k = Some x) /\
  (forall k v x, data_of m !! k = Some v -> field_of v = Some x ->
     (reserved k = true \/ m !! k ≫= field_of = None) ->
     (extractFields m).1 !! k = Some x) /\
  (forall k x, (extractFields m).1 !! k = Some x ->
     (exists v, m !! k = Some v /\ reserved k = false /\ field_of v = Some x) \/
     (exists v, data_of m !! k = Some v /\ field_of v = Some x)).
Proof.
  split; [|split; [|split; [|split]]].
  - intros v x. split.
    + destruct v; simpl; try discriminate.
      * intros [= <-]. left. eauto.
      * destruct (Number.Float64 n) as [f|] eqn:Hf; [|discriminate].
        intros [= <-]. right. right. eauto.
      * intros [= <-]. right. left. eauto.
    + intros [[b [-> ->]] | [[f [-> ->]] | [n [f [-> [Hf ->]]]]]]; simpl;
        [reflexivity | reflexivity | rewrite Hf; reflexivity].
  - intros k. unfold reserved. rewrite !orb_true_iff, !String.eqb_eq. tauto.
  - intros k v x Hk Hres Hx. rewrite extractFields_lookup, Hres, Hk. simpl.
    rewrite Hx. reflexivity.
  - intros k v x Hk Hx Htop. rewrite extractFields_lookup.
    assert (Hnone : (if reserved k then None else m !! k ≫= field_of) = None).
    { destruct Htop as [-> | Htop]; [reflexivity|]. destruct (reserved k); [reflexivity|exact Htop]. }
    rewrite Hnone, Hk. exact Hx.
  - intros k x. rewrite extractFields_lookup.
    destruct (reserved k) eqn:Hres.
    + destruct (data_of m !! k) as [v|] eqn:Hd; [|discriminate].
      simpl. intros Hx. right. eauto.
    + destruct (m !! k) as [v|] eqn:Hk; simpl.
      * destruct (field_of v) as [y|] eqn:Hy.
        -- intros [= <-]. left. eauto.
        -- destruct (data_of m !! k) as [v'|] eqn:Hd; [|discriminate].
           simpl. intros Hx. right. eauto.
      * destruct (data_of m !! k) as [v'|] eqn:Hd; [|discriminate].
        simpl. intros Hx. right. eauto.
Qed.

(** C6. Every record the handler constructs has a non-empty field set in
    which the key raw is bound to the original payload as text, a tag
    set in which subject is bound to the message subject, and a topic
    tag exactly when the extracted topic is non-empty (then bound to
    it). *)
Theorem record_shape (write : option Sink) (msg : Msg) (env : Env) (p : Point) :
  In p (written (handler write msg env)) ->
  let topic := (extractFields (parsed env)).2 in
  measurement p = "telemetry" /\
  fields p <> ∅ /\
  fields p !! "raw" = Some (VString (Data msg)) /\
  tags p !! "subject" = Some (Subject msg) /\
  (is_Some (tags p !! "topic") <-> topic <> "") /\
  (topic <> "" -> tags p !! "topic" = Some topic).
Proof.
  intros Hp topic. apply written_inv in Hp as [_ ->]. cbn [measurement fields tags].
  rewrite point_fields_eq, point_tags_eq. cbn zeta. fold topic.
  split; [reflexivity|]. split; [apply insert_non_empty|].
  split; [apply lookup_insert_eq|].
  destruct (String.eqb_spec topic "") as [Heq|Hne].
  - rewrite lookup_singleton_eq, lookup_singleton_ne by discriminate.
    split; [reflexivity|]. split; [|congruence].
    split; [intros [t Ht]; discriminate | congruence].
  - rewrite lookup_insert_ne by discriminate.
    rewrite lookup_singleton_eq, lookup_insert_eq.
    split; [reflexivity|]. split; [|reflexivity].
    split; [intros _; exact Hne | eauto].
Qed.

(** C7. For a payload that fails JSON decoding, or that decodes with
    data absent and no numeric or boolean top-level member, processing
    goes on with the broker receipt time (the default timestamp) as the
    resolved timestamp and with a field set that holds exactly one key,
    raw, bound to the payload verbatim; that is the record submitted
    when the timestamp passes the check. *)
Theorem fieldless_payload (msg : Msg) (env : Env) :
  (decoded env = None \/
   exists m, decoded env = Some m /\ m !! "data" = None /\
             forall k v, m !! k = Some v -> is_numeric v = false /\ is_boolean v = false) ->
  resolve_ts env = default_ts env /\
  point_fields msg env = {[ "raw" := VString (Data msg) ]} /\
  (forall w, in_window (clock_check env) (default_ts env) ->
     written (handler (Some w) msg env) =
     [NewPoint "telemetry" (point_tags msg env) {[ "raw" := VString (Data msg) ]}
               (default_ts env)]).
Proof.
  intros Hpayload.
  assert (Hm : (parsed env) !! "data" = None /\
               forall k v, (parsed env) !! k = Some v ->
                           is_numeric v = false /\ is_boolean v = false).
  { unfold parsed. destruct Hpayload as [-> | [m [-> Hm]]]; [|exact Hm].
    split; [apply lookup_empty|]. intros k v. rewrite lookup_empty. discriminate. }
  destruct Hm as [Hdata Hm].
  assert (Hts : resolve_ts env = default_ts env).
  { apply resolve_ts_no_int. unfold index.
    destruct ((parsed env) !! "ts_ns") as [v|] eqn:Hk; [|reflexivity].
    destruct (Hm _ v Hk) as [Hn Hb]. destruct (not_scalar v Hn Hb) as [_ ->]. reflexivity. }
  assert (Hfields : point_fields msg env = {[ "raw" := VString (Data msg) ]}).
  { rewrite point_fields_eq, (extractFields_none _ Hdata Hm). apply insert_empty. }
  split; [exact Hts|]. split; [exact Hfields|].
  intros w Hwin. rewrite <- Hts in Hwin. apply bad_timestamp_false in Hwin.
  rewrite (handler_written w msg env Hwin), Hfields, Hts. reflexivity.
Qed.

(** C8 (amended). A payload with ts_ns = 99999999999999999, that is
    1e17 - 1, resolves in the microsecond band, not the nanosecond band:
    the resolved time is the int64 product of the value and 1000, an
    instant of the year 2216. Whenever that exceeds now + 24 hours the
    message is dropped and acknowledged and no sink write is attempted. *)
Theorem far_future_override (write : option Sink) (msg : Msg) (env : Env) :
  (parsed env) !! "ts_ns" = Some (VNumber "99999999999999999") ->
  spec_band 99999999999999999 = Microseconds /\
  resolve_ts env = time.Unix 0 (Int64.mul 99999999999999999 1000) /\
  resolve_ts env = 7766279631452240920 /\
  (clock_check env + 24 * time.Hour < resolve_ts env ->
   handler write msg env = [LogDropBadTimestamp (resolve_ts env) (Subject msg); Ack] /\
   written (handler write msg env) = []).
Proof.
  intros Hts.
  assert (Hres : resolve_ts env = 7766279631452240920).
  { rewrite (resolve_ts_override env 99999999999999999); [reflexivity | | lia].
    unfold index. rewrite Hts. reflexivity. }
  split; [reflexivity|]. split; [rewrite Hres; reflexivity|]. split; [exact Hres|].
  intros Hlate.
  assert (Hbad : bad_timestamp (clock_check env) (resolve_ts env) = true).
  { apply bad_timestamp_true. unfold in_window. lia. }
  rewrite (handler_dropped write msg env Hbad). split; reflexivity.
Qed.

(** C9. When ts_ns is present but is zero, negative, or a JSON number
    with a fractional part, the override is treated as absent: the
    resolved timestamp is the broker receipt time. A JSON number counts
    by the number its literal denotes, however it is written (exponent
    forms and numbers beyond int64 included), and also when its literal
    merely shows a fraction; the same holds of a Go int64 that is not
    positive and of a float64 that is not integral. *)
Theorem unusable_override (env : Env) (v : value) :
  (parsed env) !! "ts_ns" = Some v ->
  (exists n neg m e,
     v = VNumber n /\ literal_value n = Some (neg, m, e) /\
     (m = 0 \/ neg = true \/ (e < 0 /\ m mod 10 ^ (- e) <> 0))) \/
  (exists n z, v = VNumber n /\ Number.Int64 n = strconv.Ok z /\ z <= 0) \/
  (exists n, v = VNumber n /\ has_fraction n = true) \/
  (exists z, v = VInt64 z /\ z <= 0) \/
  (exists f, v = VFloat64 f /\ Float64.trunc_eq f = false) ->
  resolve_ts env = default_ts env.
Proof.
  intros Hk Hv.
  assert (Hidx : index (parsed env) "ts_ns" = v) by (unfold index; rewrite Hk; reflexivity).
  destruct Hv as [[n [neg [m [e [-> [Hlit Hval]]]]]] |
                  [[n [z [-> [Hn Hz]]]] | [[n [-> Hn]] | [[z [-> Hz]] | [f [-> Hf]]]]]].
  - destruct (strconv.ParseInt n) as [z|err] eqn:Hp.
    + apply (resolve_ts_nonpos env z true).
      * rewrite Hidx. simpl. unfold Number.Int64. rewrite Hp. reflexivity.
      * destruct (ParseInt_literal_value n z Hp) as [neg' [un [Hlit' [Hz Hun]]]].
        rewrite Hlit in Hlit'. injection Hlit' as -> -> ->.
        destruct Hval as [-> | [-> | [He _]]]; [destruct neg'; lia | lia | lia].
    + apply resolve_ts_no_int. rewrite Hidx. simpl. unfold Number.Int64.
      rewrite Hp. reflexivity.
  - apply (resolve_ts_nonpos env z true); [|exact Hz].
    rewrite Hidx. simpl. rewrite Hn. reflexivity.
  - apply resolve_ts_no_int. rewrite Hidx. simpl. unfold Number.Int64.
    rewrite (ParseInt_fraction n Hn). reflexivity.
  - apply (resolve_ts_nonpos env z true); [|exact Hz]. rewrite Hidx. reflexivity.
  - apply resolve_ts_no_int. rewrite Hidx. simpl. rewrite Hf. reflexivity.
Qed.

(** C10 (amended). When the payload itself has a numeric or boolean
    member named raw, at top level or inside data, the record the handler
    constructs still has its raw field equal to the original payload
    text: its field set is the extracted one with raw overwritten. The
    payload's own value is extracted first only when it is a boolean or a
    number that converts to float64 without error (the top-level one as
    it is); a number whose conversion fails is not extracted at all. *)
Theorem payload_raw_overwritten (w : Sink) (msg : Msg) (env : Env) (v : value) :
  (parsed env) !! "raw" = Some v \/ data_of (parsed env) !! "raw" = Some v ->
  is_numeric v || is_boolean v = true ->
  in_window (clock_check env) (resolve_ts env) ->
  exists p,
    written (handler (Some w) msg env) = [p] /\
    fields p !! "raw" = Some (VString (Data msg)) /\
    fields p = <["raw" := VString (Data msg)]> (extractFields (parsed env)).1 /\
    (forall x, field_of v = Some x ->
       exists y, (extractFields (parsed env)).1 !! "raw" = Some y /\
                 y <> VString (Data msg) /\
                 ((parsed env) !! "raw" = Some v -> y = x)).
Proof.
  intros Hraw Hnum Hwin. apply bad_timestamp_false in Hwin.
  exists (NewPoint "telemetry" (point_tags msg env) (point_fields msg env) (resolve_ts env)).
  split; [apply handler_written, Hwin|]. cbn [fields]. rewrite point_fields_eq.
  split; [apply lookup_insert_eq|]. split; [reflexivity|].
  intros x Hx.
  assert (Hsome : exists y, (extractFields (parsed env)).1 !! "raw" = Some y /\
                            ((parsed env) !! "raw" = Some v -> y = x)).
  { rewrite extractFields_lookup. change (reserved "raw") with false. cbn iota.
    destruct Hraw as [Htop | Hdata].
    - rewrite Htop. simpl. rewrite Hx. eauto.
    - destruct ((parsed env) !! "raw") as [v'|] eqn:Htop; simpl.
      + destruct (field_of v') as [y'|] eqn:Hy'.
        * exists y'. split; [reflexivity|]. intros [= ->]. congruence.
        * rewrite Hdata. simpl. rewrite Hx. exists x. split; [reflexivity|].
          intros [= ->]. congruence.
      + rewrite Hdata. simpl. rewrite Hx. exists x. split; [reflexivity | discriminate]. }
  destruct Hsome as [y [Hy Htop]]. exists y. split; [exact Hy|]. split; [|exact Htop].
  destruct (extractFields_scalar _ _ _ Hy) as [[f ->] | [b ->]]; discriminate.
Qed.

End Properties.

(* ===================================================================== *)
(** * The properties at work on concrete deliveries *)

Section Instances.

Import Scenario.

#[local] Existing Instance utc_amd64.

(** A message stored eleven years ago is dropped. *)
Lemma out_of_window_dropped_witness :
  ~ in_window (clock_check env_stale) (resolve_ts env_stale) /\
  handler (Some sink_accepting) (msg_of payload_A) env_stale =
    [LogDropBadTimestamp (resolve_ts env_stale) "telemetry.arm1"; Ack].
Proof.
  assert (Hout : ~ in_window (clock_check env_stale) (resolve_ts env_stale)).
  { vm_compute. intros [Hlo _]. apply Hlo. reflexivity. }
  split; [exact Hout|].
  exact (proj1 (proj1 (out_of_window_dropped (Some sink_accepting) (msg_of payload_A)
                         env_stale) Hout)).
Defined.

(** Scenario B: a 13-digit override is read as milliseconds. *)
Lemma override_bands_witness :
  0 < 1700000000000 /\
  unixAnyToTime 1700000000000 = time.Unix 0 (Int64.mul 1700000000000 1000000) /\
  resolve_ts env_B = time.Unix 1700000000 0.
Proof.
  assert (Hpos : 0 < 1700000000000) by lia.
  split; [exact Hpos|].
  pose proof (override_bands 1700000000000 Hpos) as [Hcode [_ [_ [Hres _]]]].
  split; [exact Hcode|].
  rewrite (Hres env_B); reflexivity.
Defined.

(** Scenario D: a retention error is acknowledged; Scenario E: a timeout
    is negatively acknowledged. *)
Lemma write_failure_classified_witness :
  in_window (clock_check env_A) (resolve_ts env_A) /\
  signals (handler (Some sink_retention) (msg_of payload_A) env_A) = [Ack] /\
  signals (handler (Some sink_timeout) (msg_of payload_A) env_A) = [Nak].
Proof.
  assert (Hwin : in_window (clock_check env_A) (resolve_ts env_A)).
  { vm_compute. split; discriminate. }
  split; [exact Hwin|]. split.
  - rewrite (proj1 (write_failure_classified sink_retention (msg_of payload_A) env_A
                      "write failed: point outside retention policy" Hwin eq_refl)).
    + reflexivity.
    + left. exists "write failed: point ", "". reflexivity.
  - rewrite (proj2 (write_failure_classified sink_timeout (msg_of payload_A) env_A
                      "dial tcp 127.0.0.1:8086: i/o timeout" Hwin eq_refl)).
    + reflexivity.
    + intros Hperm. apply unsalvageable_spec in Hperm. discriminate.
Defined.

(** A payload that does not decode is handled like an empty document. *)
Lemma one_signal_per_delivery_witness :
  decoded env_malformed = None /\
  handler None (msg_of payload_malformed) env_malformed =
  handler None (msg_of payload_malformed) (env_of (Some receipt) (Some ∅)).
Proof.
  split; [reflexivity|].
  exact (proj2 (proj2 (one_signal_per_delivery None (msg_of payload_malformed)
                         env_malformed)) eq_refl).
Defined.

(** Scenario B: the boolean member v is copied. *)
Lemma extractFields_exact_witness :
  decoded_B !! "v" = Some (VBool true) /\
  (extractFields decoded_B).1 !! "v" = Some (VBool true).
Proof.
  split; [reflexivity|].
  exact (proj1 (proj2 (proj2 (extractFields_exact decoded_B)))
           "v" (VBool true) (VBool true) eq_refl eq_refl eq_refl).
Defined.

(** Scenario A: the record built for the arm message. *)
Lemma record_shape_witness :
  let p := NewPoint "telemetry" (point_tags (msg_of payload_A) env_A)
                    (point_fields (msg_of payload_A) env_A) receipt in
  In p (written (handler (Some sink_accepting) (msg_of payload_A) env_A)) /\
  fields p !! "raw" = Some (VString payload_A) /\
  tags p !! "subject" = Some "telemetry.arm1" /\
  tags p !! "topic" = Some "arm".
Proof.
  intros p.
  assert (Hin : In p (written (handler (Some sink_accepting) (msg_of payload_A) env_A))).
  { vm_compute. left. reflexivity. }
  split; [exact Hin|].
  pose proof (record_shape (Some sink_accepting) (msg_of payload_A) env_A p Hin)
    as [_ [_ [Hraw [Hsubject [_ Htopic]]]]].
  split; [exact Hraw|]. split; [exact Hsubject|].
  apply Htopic. discriminate.
Defined.

(** A malformed payload is written with the receipt time and raw only. *)
Lemma fieldless_payload_witness :
  decoded env_malformed = None /\
  resolve_ts env_malformed = receipt /\
  point_fields (msg_of payload_malformed) env_malformed =
    {[ "raw" := VString payload_malformed ]}.
Proof.
  split; [reflexivity|].
  pose proof (fieldless_payload (msg_of payload_malformed) env_malformed
                (or_introl eq_refl)) as [Hts [Hfields _]].
  split; [exact Hts | exact Hfields].
Defined.

(** Scenario C: dropped, acknowledged, nothing written. *)
Lemma far_future_override_witness :
  (parsed env_C) !! "ts_ns" = Some (VNumber "99999999999999999") /\
  clock_check env_C + 24 * time.Hour < resolve_ts env_C /\
  handler (Some sink_accepting) (msg_of payload_C) env_C =
    [LogDropBadTimestamp (resolve_ts env_C) "telemetry.arm1"; Ack].
Proof.
  assert (Hk : (parsed env_C) !! "ts_ns" = Some (VNumber "99999999999999999"))
    by reflexivity.
  assert (Hlate : clock_check env_C + 24 * time.Hour < resolve_ts env_C)
    by (vm_compute; reflexivity).
  split; [exact Hk|]. split; [exact Hlate|].
  pose proof (far_future_override (Some sink_accepting) (msg_of payload_C) env_C Hk)
    as [_ [_ [_ Hdrop]]].
  exact (proj1 (Hdrop Hlate)).
Defined.

(** Zero, negative and fractional stamps, however written, leave the
    receipt time in place. *)
Lemma unusable_override_witness :
  (literal_value "-1e3" = Some (true, 1, 3) /\
   resolve_ts (MoreScenario.env_stamped "-1e3") = receipt) /\
  (literal_value "0e5" = Some (false, 0, 5) /\
   resolve_ts (MoreScenario.env_stamped "0e5") = receipt) /\
  (literal_value "-99999999999999999999" = Some (true, 99999999999999999999, 0) /\
   resolve_ts (MoreScenario.env_stamped "-99999999999999999999") = receipt) /\
  (literal_value "1E-2" = Some (false, 1, -2) /\
   resolve_ts (MoreScenario.env_stamped "1E-2") = receipt) /\
  (has_fraction "1.5" = true /\ resolve_ts env_fraction = receipt).
Proof.
  split; [|split; [|split; [|split]]]; (split; [reflexivity|]).
  - apply (unusable_override (MoreScenario.env_stamped "-1e3") (VNumber "-1e3") eq_refl).
    left. exists "-1e3", true, 1, 3. split; [reflexivity|]. split; [reflexivity|].
    right. left. reflexivity.
  - apply (unusable_override (MoreScenario.env_stamped "0e5") (VNumber "0e5") eq_refl).
    left. exists "0e5", false, 0, 5. split; [reflexivity|]. split; [reflexivity|].
    left. reflexivity.
  - apply (unusable_override (MoreScenario.env_stamped "-99999999999999999999")
             (VNumber "-99999999999999999999") eq_refl).
    left. exists "-99999999999999999999", true, 99999999999999999999, 0.
    split; [reflexivity|]. split; [reflexivity|]. right. left. reflexivity.
  - apply (unusable_override (MoreScenario.env_stamped "1E-2") (VNumber "1E-2") eq_refl).
    left. exists "1E-2", false, 1, (-2). split; [reflexivity|]. split; [reflexivity|].
    right. right. vm_compute. split; [reflexivity | discriminate].
  - apply (unusable_override env_fraction (VNumber "1.5") eq_refl).
    right. right. left. exists "1.5". split; reflexivity.
Defined.

(** A payload with its own raw members: 7 is extracted, and the record
    written has raw = the text. *)
Lemma payload_raw_overwritten_witness :
  (parsed env_raw) !! "raw" = Some (VNumber "7") /\
  in_window (clock_check env_raw) (resolve_ts env_raw) /\
  (extractFields (parsed env_raw)).1 !! "raw"
    = Some (VFloat64 (S754_finite false 7881299347898368 (-50))) /\
  exists p,
    written (handler (Some sink_accepting) (msg_of payload_raw) env_raw) = [p] /\
    fields p !! "raw" = Some (VString payload_raw).
Proof.
  assert (Hwin : in_window (clock_check env_raw) (resolve_ts env_raw))
    by (vm_compute; split; discriminate).
  split; [reflexivity|]. split; [exact Hwin|]. split; [vm_compute; reflexivity|].
  destruct (payload_raw_overwritten sink_accepting (msg_of payload_raw) env_raw (VNumber "7")
              (or_introl eq_refl) eq_refl Hwin) as [p [Hp [Hraw _]]].
  exists p. split; [exact Hp | exact Hraw].
Defined.

(** C10 as stated fails on [{"raw": 1e999}]: the member raw is numeric,
    yet its value is not extracted, so there is nothing to overwrite. *)
Lemma raw_member_not_extracted :
  (parsed MoreScenario.env_raw_huge) !! "raw" = Some (VNumber "1e999") /\
  is_numeric (VNumber "1e999") || is_boolean (VNumber "1e999") = true /\
  (extractFields (parsed MoreScenario.env_raw_huge)).1 !! "raw" = None.
Proof.
  split; [reflexivity|]. split; [reflexivity|]. vm_compute. reflexivity.
Qed.

(** C5 as stated fails on [{"x": 1e999}]: the member x is numeric and its
    key is not reserved, yet it is not copied. *)
Lemma numeric_member_left_out :
  decoded_huge !! "x" = Some (VNumber "1e999") /\
  reserved "x" = false /\
  is_numeric (VNumber "1e999") = true /\
  (extractFields decoded_huge).1 !! "x" = None /\
  ~ (forall (m : gmap string value) (k : string) (v : value),
       m !! k = Some v -> reserved k = false ->
       is_numeric v || is_boolean v = true ->
       is_Some ((extractFields m).1 !! k)).
Proof.
  assert (Hout : (extractFields decoded_huge).1 !! "x" = None) by (vm_compute; reflexivity).
  split; [reflexivity|]. split; [reflexivity|]. split; [reflexivity|].
  split; [exact Hout|].
  intros Hall.
  destruct (Hall decoded_huge "x" (VNumber "1e999") eq_refl eq_refl eq_refl) as [x Hx].
  rewrite Hout in Hx. discriminate.
Qed.

(** C8 as stated fails: 99999999999999999 is below 1e17, so it is not
    read as nanoseconds. *)
Lemma far_future_not_nanoseconds :
  (parsed env_C) !! "ts_ns" = Some (VNumber "99999999999999999") /\
  spec_band 99999999999999999 <> Nanoseconds /\
  resolve_ts env_C <> time.Unix 0 99999999999999999.
Proof.
  split; [reflexivity|]. split; [vm_compute; discriminate|].
  vm_compute. discriminate.
Qed.

(** C2 (a defect of the code). The band is chosen as the claim says, but
    the product with 1000 is taken in int64 and wraps. 1e17 - 1, in the
    microsecond band, resolves to 7766279631452240920 ns after the epoch
    (8 February 2216) and not to 1e17 - 1 microseconds after it. The
    microsecond stamp 20240364873709551, an instant of the year 2611,
    resolves to 616 ns before the clock of the scenario: the message
    passes the sanity check and is written with that timestamp. *)
Theorem microsecond_product_wraps :
  (spec_band (10 ^ 17 - 1) = Microseconds /\
   unixAnyToTime (10 ^ 17 - 1) = 7766279631452240920 /\
   unixAnyToTime (10 ^ 17 - 1) <> (10 ^ 17 - 1) * 10 ^ 3) /\
  (spec_band 20240364873709551 = Microseconds /\
   (parsed (MoreScenario.env_stamped "20240364873709551")) !! "ts_ns"
     = Some (VNumber "20240364873709551") /\
   resolve_ts (MoreScenario.env_stamped "20240364873709551") = now - 616 /\
   resolve_ts (MoreScenario.env_stamped "20240364873709551") <> 20240364873709551 * 10 ^ 3 /\
   exists p,
     handler (Some sink_accepting)
             (msg_of (MoreScenario.payload_stamped "20240364873709551"))
             (MoreScenario.env_stamped "20240364873709551") = [WritePoint p; Ack] /\
     timestamp p = now - 616).
Proof.
  split.
  - split; [vm_compute; reflexivity|]. split; [vm_compute; reflexivity|].
    vm_compute. discriminate.
  - split; [vm_compute; reflexivity|]. split; [reflexivity|].
    split; [vm_compute; reflexivity|]. split; [vm_compute; discriminate|].
    eexists. split; [vm_compute; reflexivity|]. vm_compute. reflexivity.
Qed.

End Instances.

(* ===================================================================== *)
(** * Further properties of the worker *)

Section MoreFacts.

Context `{rt : Runtime}.

Lemma wrap_range (z : Z) : Int64.in_range (Int64.wrap z).
Proof.
  unfold Int64.in_range, Int64.wrap, Int64.min_int, Int64.max_int.
  pose proof (Z.mod_pos_bound (z + 2 ^ 63) (2 ^ 64) ltac:(lia)). lia.
Qed.

Lemma foldl_foldr_reverse {A B} (f : A -> B -> A) (a : A) (l : list B) :
  foldl f a l = foldr (fun x acc => f acc x) a (reverse l).
Proof.
  revert a. induction l as [|x l IH]; intros a; [reflexivity|].
  rewrite reverse_cons, foldr_app. simpl. apply IH.
Qed.

Lemma foldl_range (skip : string -> bool) (m acc : gmap string value)
    (l : list (string * value)) :
  l ≡ₚ map_to_list m ->
  foldl (fun fields kv => if skip kv.1 then fields else store kv.1 kv.2 fields) acc l =
  map_fold (fun k v fields => if skip k then fields else store k v fields) acc m.
Proof.
  intros Hl. rewrite foldl_foldr_reverse.
  rewrite <- (range_any_order skip m acc (reverse l))
    by (rewrite reverse_Permutation; exact Hl).
  apply foldr_ext; [|reflexivity..]. intros [k v] b. reflexivity.
Qed.

Lemma digits_all_digits (s : string) (acc r : Z) :
  strconv.digits s acc = Some r -> forallb is_digit (list_ascii_of_string s) = true.
Proof.
  revert acc. induction s as [|c s IH]; intros acc; simpl; [reflexivity|].
  unfold strconv.digit_of, is_digit.
  destruct (_ && _); [|discriminate]. intros H. simpl. eapply IH, H.
Qed.

Lemma all_digits_digits (s : string) (acc : Z) :
  forallb is_digit (list_ascii_of_string s) = true -> is_Some (strconv.digits s acc).
Proof.
  revert acc. induction s as [|c s IH]; intros acc; simpl; [eauto|].
  unfold strconv.digit_of, is_digit. intros H. apply andb_true_iff in H as [Hc Hs].
  rewrite Hc. apply IH, Hs.
Qed.

Lemma digit_not_sign (c : ascii) :
  is_digit c = true -> Ascii.eqb c "+" = false /\ Ascii.eqb c "-" = false.
Proof.
  intros Hc. split.
  - destruct (Ascii.eqb_spec c "+") as [->|]; [discriminate | reflexivity].
  - destruct (Ascii.eqb_spec c "-") as [->|]; [discriminate | reflexivity].
Qed.

(** On an integer literal [ParseInt] reports no syntax error. *)
Lemma ParseInt_literal (n : string) :
  integer_literal n -> strconv.ParseInt n <> strconv.Err strconv.ErrSyntax.
Proof.
  intros [sign [body [-> [Hsign [Hne Hdig]]]]].
  assert (Hu : strconv.ParseUint body <> strconv.Err strconv.ErrSyntax).
  { unfold strconv.ParseUint. destruct body as [|c b]; [congruence|].
    destruct (all_digits_digits (String c b) 0 Hdig) as [un ->].
    destruct (un <=? 2 ^ 64 - 1); discriminate. }
  assert (Hp : forall neg : bool,
             match strconv.ParseUint body with
             | strconv.Err e => strconv.Err e
             | strconv.Ok un =>
                 if negb neg && (2 ^ 63 <=? un) then strconv.Err strconv.ErrRange
                 else if neg && (2 ^ 63 <? un) then strconv.Err strconv.ErrRange
                 else strconv.Ok (if neg then - un else un)
             end <> strconv.Err strconv.ErrSyntax).
  { intros neg. destruct (strconv.ParseUint body) as [un|e]; [|congruence].
    destruct (negb neg && _); [discriminate|]. destruct (neg && _); discriminate. }
  destruct Hsign as [-> | [-> | ->]].
  - destruct body as [|c b]; [congruence|]. simpl in Hdig.
    apply andb_true_iff in Hdig as [Hc Hb].
    destruct (digit_not_sign c Hc) as [Hplus Hminus].
    change (String.append "" (String c b)) with (String c b).
    unfold strconv.ParseInt. rewrite Hplus, Hminus. apply (Hp false).
  - apply (Hp false).
  - apply (Hp true).
Qed.

(** What [ParseInt] accepts is an integer literal. *)
Lemma ParseInt_ok_literal (n : string) (z : Z) :
  strconv.ParseInt n = strconv.Ok z -> integer_literal n.
Proof.
  unfold strconv.ParseInt. destruct n as [|c n]; [discriminate|]. cbn zeta.
  set (body := if Ascii.eqb c "+" || Ascii.eqb c "-" then n else String c n).
  destruct (strconv.ParseUint body) as [un|e] eqn:Hu; [|discriminate]. intros _.
  assert (Hbody : body <> "" /\ forallb is_digit (list_ascii_of_string body) = true).
  { unfold strconv.ParseUint in Hu. destruct body as [|d b]; [discriminate|].
    destruct (strconv.digits (String d b) 0) as [r|] eqn:Hd; [|discriminate].
    split; [discriminate | eapply digits_all_digits, Hd]. }
  subst body.
  destruct (Ascii.eqb_spec c "+") as [->|Hplus]; [|destruct (Ascii.eqb_spec c "-") as [->|Hminus]].
  - exists "+", n. simpl in Hbody. tauto.
  - exists "-", n. simpl in Hbody. tauto.
  - exists "", (String c n). simpl in Hbody. tauto.
Qed.

End MoreFacts.

Section MoreProperties.

Context `{rt : Runtime}.

(** In each of the four units a present-day instant falls into the band
    of its unit, and its product with the unit's factor fits an int64. *)
Lemma unixAnyToTime_truncates (t f : Z) :
  10 ^ 17 <= t <= Int64.max_int ->
  f = 1 \/ f = 10 ^ 3 \/ f = 10 ^ 6 \/ f = 10 ^ 9 ->
  unixAnyToTime (t / f) = t / f * f.
Proof.
  unfold Int64.max_int. intros Ht Hf.
  { unfold unixAnyToTime, time.Unix, Int64.mul.
    change (10 ^ 3) with 1000 in Hf. change (10 ^ 6) with 1000000 in Hf.
    change (10 ^ 9) with 1000000000 in Hf. change (10 ^ 17) with 100000000000000000 in Ht.
    change (2 ^ 63 - 1) with 9223372036854775807 in Ht.
    assert (Hdiv : 0 < f -> t = f * (t / f) + t mod f /\ 0 <= t mod f < f).
    { intros Hpos. split; [apply Z.div_mod; lia | apply Z.mod_pos_bound; lia]. }
    destruct Hf as [-> | [-> | [-> | ->]]]; destruct Hdiv as [Hd Hm]; try lia.
    - destruct (Z.leb_spec 100000000000000000 (t / 1)); lia.
    - destruct (Z.leb_spec 100000000000000000 (t / 1000)); [lia|].
      destruct (Z.leb_spec 100000000000000 (t / 1000)); [|lia].
      rewrite wrap_small; [lia|].
      unfold Int64.in_range, Int64.min_int, Int64.max_int. lia.
    - destruct (Z.leb_spec 100000000000000000 (t / 1000000)); [lia|].
      destruct (Z.leb_spec 100000000000000 (t / 1000000)); [lia|].
      destruct (Z.leb_spec 100000000000 (t / 1000000)); [|lia].
      rewrite wrap_small; [lia|].
      unfold Int64.in_range, Int64.min_int, Int64.max_int. lia.
    - destruct (Z.leb_spec 100000000000000000 (t / 1000000000)); [lia|].
      destruct (Z.leb_spec 100000000000000 (t / 1000000000)); [lia|].
      destruct (Z.leb_spec 100000000000 (t / 1000000000)); lia. }
Qed.

(** X1. The unit heuristic is right for the present: an instant between
    1e17 ns after the epoch (March 1973) and the largest int64 (April
    2262), written in nanoseconds, microseconds, milliseconds or seconds,
    resolves to that instant truncated to the unit. *)
Theorem override_round_trip (t f : Z) :
  10 ^ 17 <= t <= Int64.max_int ->
  f = 1 \/ f = 10 ^ 3 \/ f = 10 ^ 6 \/ f = 10 ^ 9 ->
  unixAnyToTime (t / f) = t / f * f /\
  t - f < unixAnyToTime (t / f) <= t.
Proof.
  intros Ht Hf.
  pose proof (unixAnyToTime_truncates t f Ht Hf) as Hres.
  split; [exact Hres|]. rewrite Hres.
  assert (Hpos : 0 < f) by (destruct Hf as [-> | [-> | [-> | ->]]]; lia).
  pose proof (Z.div_mod t f ltac:(lia)) as Hdiv.
  pose proof (Z.mod_pos_bound t f Hpos) as Hmod.
  lia.
Qed.

(** X2. Where the heuristic overflows. In the microsecond band the
    resolved instant is the value times 1000 exactly when the value is at
    most 9223372036854775, in the millisecond band it is the value times
    1e6 exactly when the value is at most 9223372036854; above these the
    int64 product wraps and the instant is another one. The nanosecond and
    second bands are always exact. *)
Theorem override_exact_iff (V : Z) :
  (10 ^ 17 <= V -> unixAnyToTime V = V) /\
  (10 ^ 14 <= V < 10 ^ 17 ->
     (unixAnyToTime V = V * 10 ^ 3 <-> V <= 9223372036854775)) /\
  (10 ^ 11 <= V < 10 ^ 14 ->
     (unixAnyToTime V = V * 10 ^ 6 <-> V <= 9223372036854)) /\
  (V < 10 ^ 11 -> unixAnyToTime V = V * 10 ^ 9).
Proof.
  unfold unixAnyToTime, time.Unix, Int64.mul.
  split; [|split; [|split]]; intros HV.
  - destruct (Z.leb_spec 100000000000000000 V); lia.
  - destruct (Z.leb_spec 100000000000000000 V); [lia|].
    destruct (Z.leb_spec 100000000000000 V); [|lia].
    pose proof (wrap_range (V * 1000)) as Hr.
    unfold Int64.in_range, Int64.min_int, Int64.max_int in Hr. split.
    + intros Heq. lia.
    + intros Hle. rewrite wrap_small; [lia|].
      unfold Int64.in_range, Int64.min_int, Int64.max_int. lia.
  - destruct (Z.leb_spec 100000000000000000 V); [lia|].
    destruct (Z.leb_spec 100000000000000 V); [lia|].
    destruct (Z.leb_spec 100000000000 V); [|lia].
    pose proof (wrap_range (V * 1000000)) as Hr.
    unfold Int64.in_range, Int64.min_int, Int64.max_int in Hr. split.
    + intros Heq. lia.
    + intros Hle. rewrite wrap_small; [lia|].
      unfold Int64.in_range, Int64.min_int, Int64.max_int. lia.
  - destruct (Z.leb_spec 100000000000000000 V); [lia|].
    destruct (Z.leb_spec 100000000000000 V); [lia|].
    destruct (Z.leb_spec 100000000000 V); lia.
Qed.

(** X3. The field set does not depend on the order in which Go ranges
    over the payload and over its nested data mapping: running the two
    loops of extractFields over any enumerations of the two maps gives the
    result of extractFields. *)
Theorem extractFields_any_order (m : gmap string value)
    (order_data order_top : list (string * value)) :
  (forall dv, index m "data" = VMap dv -> order_data ≡ₚ map_to_list dv) ->
  order_top ≡ₚ map_to_list m ->
  extractFields_ranged order_data order_top m = extractFields m.
Proof.
  intros Hdata Htop. unfold extractFields_ranged, extractFields. cbn zeta.
  f_equal. rewrite (foldl_range reserved m _ order_top Htop). f_equal.
  destruct (index m "data") as [| | | | | | |dv]; try reflexivity.
  apply (foldl_range (fun _ => false) dv ∅ order_data). apply Hdata. reflexivity.
Qed.

(** X4. The control members of a payload never reach the field set: two
    payloads that agree on data and on every key other than topic,
    trace_id and ts_ns yield the same fields, and a field named like a
    reserved key can only come from the nested data mapping. *)
Theorem control_members_not_extracted (m1 m2 : gmap string value) :
  (forall k, reserved k = false -> m1 !! k = m2 !! k) ->
  m1 !! "data" = m2 !! "data" ->
  (extractFields m1).1 = (extractFields m2).1 /\
  (forall k, reserved k = true ->
             (extractFields m1).1 !! k = data_of m1 !! k ≫= field_of).
Proof.
  intros Hsame Hdata. split.
  - apply map_eq. intros k. rewrite !extractFields_lookup.
    unfold data_of. rewrite Hdata.
    destruct (reserved k) eqn:Hres; [reflexivity|]. rewrite (Hsame k Hres). reflexivity.
  - intros k Hres. rewrite extractFields_lookup, Hres. reflexivity.
Qed.

(** X5. Every field of a point the handler submits has a type the sink
    takes: raw is the payload as a string, every other field is a float64
    or a bool. *)
Theorem written_field_types (write : option Sink) (msg : Msg) (env : Env)
    (p : Point) (k : string) (x : value) :
  In p (written (handler write msg env)) ->
  fields p !! k = Some x ->
  (k = "raw" /\ x = VString (Data msg)) \/
  (k <> "raw" /\ ((exists f, x = VFloat64 f) \/ (exists b, x = VBool b))).
Proof.
  intros Hp Hk. apply written_inv in Hp as [_ ->]. cbn [fields] in Hk.
  rewrite point_fields_eq in Hk.
  destruct (decide (k = "raw")) as [->|Hne].
  - rewrite lookup_insert_eq in Hk. left. split; congruence.
  - rewrite lookup_insert_ne in Hk by congruence.
    right. split; [exact Hne|]. eapply extractFields_scalar, Hk.
Qed.

(** X6. Redelivery is asked for in one situation only: the timestamp
    passed the check, a sink is configured, the write was attempted and
    failed, and the error text names neither permanent condition. In every
    other run the message is acknowledged; with no sink configured it
    always is. *)
Theorem nak_iff (write : option Sink) (msg : Msg) (env : Env) :
  let p := NewPoint "telemetry" (point_tags msg env) (point_fields msg env) (resolve_ts env) in
  let retry :=
    in_window (clock_check env) (resolve_ts env) /\
    exists w err, write = Some w /\ w p = Some err /\ unsalvageable err = false in
  (signals (handler write msg env) = [Nak] <-> retry) /\
  (signals (handler write msg env) = [Ack] <-> ~ retry) /\
  (write = None -> signals (handler write msg env) = [Ack]).
Proof.
  intros p retry. rewrite handler_stages. cbn zeta. fold p.
  assert (Hack : forall tr : list event, signals tr = [Ack] -> ~ retry ->
            (signals tr = [Nak] <-> retry) /\ (signals tr = [Ack] <-> ~ retry) /\
            (write = None -> signals tr = [Ack])).
  { intros tr -> Hno. split; [|split].
    - split; [discriminate | intros H; contradiction].
    - split; [intros _; exact Hno | reflexivity].
    - reflexivity. }
  destruct (bad_timestamp (clock_check env) (resolve_ts env)) eqn:Hbad.
  - apply Hack; [reflexivity|].
    intros [Hwin _]. apply bad_timestamp_false in Hwin. congruence.
  - pose proof (proj1 (bad_timestamp_false _ _) Hbad) as Hwin.
    destruct write as [w|].
    + destruct (w p) as [err|] eqn:Hw; [destruct (unsalvageable err) eqn:Hu|].
      * apply Hack; [reflexivity|].
        intros [_ [w' [err' [[= <-] [Hw' Hu']]]]]. congruence.
      * assert (Hyes : retry) by (split; [exact Hwin | eauto]).
        change (signals (WritePoint p :: [LogWriteError err; Nak])) with [Nak].
        split; [|split].
        -- split; [intros _; exact Hyes | reflexivity].
        -- split; [discriminate | intros H; contradiction].
        -- discriminate.
      * apply Hack; [reflexivity|].
        intros [_ [w' [err' [[= <-] [Hw' _]]]]]. congruence.
    + apply Hack; [reflexivity|].
      intros [_ [w' [err' [Hsome _]]]]. discriminate.
Qed.

(** X7. A run of the handler attempts at most one write, and attempts
    one exactly when a sink is configured and the timestamp passed the
    check; the point submitted is the same whatever the sink answers. *)
Theorem one_write_attempt (write : option Sink) (msg : Msg) (env : Env) :
  (length (written (handler write msg env)) <= 1)%nat /\
  (written (handler write msg env) <> [] <->
     is_Some write /\ in_window (clock_check env) (resolve_ts env)) /\
  (forall w1 w2 : Sink,
     written (handler (Some w1) msg env) = written (handler (Some w2) msg env)).
Proof.
  assert (Hw : forall w, written (handler (Some w) msg env) =
            if bad_timestamp (clock_check env) (resolve_ts env) then []
            else [NewPoint "telemetry" (point_tags msg env) (point_fields msg env)
                           (resolve_ts env)]).
  { intros w. destruct (bad_timestamp _ _) eqn:Hbad.
    - rewrite handler_dropped by exact Hbad. reflexivity.
    - apply handler_written. exact Hbad. }
  assert (Hn : written (handler None msg env) = []).
  { rewrite handler_stages. cbn zeta. destruct (bad_timestamp _ _); reflexivity. }
  split; [|split].
  - destruct write as [w|]; [rewrite Hw; destruct (bad_timestamp _ _)|rewrite Hn]; simpl; lia.
  - rewrite <- bad_timestamp_false.
    destruct write as [w|].
    + rewrite Hw. destruct (bad_timestamp _ _); split.
      * intros H. exfalso. apply H. reflexivity.
      * intros [_ H]. discriminate.
      * intros _. split; [eauto | reflexivity].
      * intros _. discriminate.
    + rewrite Hn. split; [intros H; exfalso; apply H; reflexivity|].
      intros [[w Hsome] _]. discriminate.
  - intros w1 w2. rewrite !Hw. reflexivity.
Qed.

(** X8. Redelivery writes the same point. Two runs of the handler on the
    same message that decode alike and either carry the same broker
    timestamp or a usable ts_ns override submit equal points, whatever
    the clocks and the sinks are: a duplicate delivery overwrites the
    earlier point instead of adding one. *)
Theorem redelivery_same_point (w1 w2 : option Sink) (msg : Msg) (env1 env2 : Env)
    (p1 p2 : Point) :
  decoded env1 = decoded env2 ->
  (is_Some (metadata env1) /\ metadata env1 = metadata env2) \/
  (exists v, asInt64 (index (parsed env1) "ts_ns") = (v, true) /\ 0 < v) ->
  In p1 (written (handler w1 msg env1)) ->
  In p2 (written (handler w2 msg env2)) ->
  p1 = p2.
Proof.
  intros Hdec Hts H1 H2.
  apply written_inv in H1 as [_ ->]. apply written_inv in H2 as [_ ->].
  assert (Hparsed : parsed env1 = parsed env2) by (unfold parsed; rewrite Hdec; reflexivity).
  assert (Hres : resolve_ts env1 = resolve_ts env2).
  { destruct Hts as [[[t Ht] Hmd] | [v [Hv Hpos]]].
    - unfold resolve_ts, default_ts. rewrite Hparsed, <- Hmd, Ht. reflexivity.
    - rewrite (resolve_ts_override env1 v Hv Hpos).
      rewrite Hparsed in Hv. rewrite (resolve_ts_override env2 v Hv Hpos). reflexivity. }
  unfold point_tags, point_fields. rewrite Hparsed, Hres. reflexivity.
Qed.

(** X9. The classification of a failure survives wrapping: an error text
    that contains the text of a permanent failure is itself permanent, so
    context added around the sink's message cannot turn a drop into a
    retry. *)
Theorem unsalvageable_wrapped (err pre post : string) :
  unsalvageable err = true ->
  unsalvageable (String.append pre (String.append err post)) = true.
Proof.
  rewrite !unsalvageable_spec.
  assert (Hassoc : forall a b c, String.append (String.append a b) c
                                 = String.append a (String.append b c)).
  { intros a b c. induction a as [|x a IH]; [reflexivity|].
    change (String x (String.append (String.append a b) c)
            = String x (String.append a (String.append b c))).
    f_equal. exact IH. }
  intros [[a [b ->]] | [a [b ->]]]; [left | right];
    exists (String.append pre a), (String.append b post);
    rewrite !Hassoc; reflexivity.
Qed.

(** X10. [getenv] falls back on the default for a variable that is unset
    or set to the empty string, returns the value of a variable set to
    anything else, is never empty when the default is not, and reads no
    other variable. *)
Theorem getenv_fallback (environ : gmap string string) (k def v : string) :
  (environ !! k = None \/ environ !! k = Some "" -> getenv environ k def = def) /\
  (v <> "" -> getenv (<[k := v]> environ) k def = v) /\
  (def <> "" -> getenv environ k def <> "") /\
  (forall k', k' <> k -> getenv (<[k' := v]> environ) k def = getenv environ k def).
Proof.
  unfold getenv, os.Getenv. split; [|split; [|split]].
  - intros [-> | ->]; reflexivity.
  - intros Hv. rewrite lookup_insert_eq.
    destruct (String.eqb_spec v ""); [contradiction | reflexivity].
  - intros Hdef. destruct (environ !! k) as [x|]; [|exact Hdef].
    destruct (String.eqb_spec x ""); [exact Hdef | assumption].
  - intros k' Hk. rewrite lookup_insert_ne by exact Hk. reflexivity.
Qed.

(** X11. Without a token the worker runs dry: when INFLUX_TOKEN is unset
    or empty, whatever the other settings and the client are, no delivery
    reaches the sink and every delivery is acknowledged. *)
Theorem no_token_no_write (environ : gmap string string) (client : InfluxClient)
    (msg : Msg) (env : Env) :
  environ !! "INFLUX_TOKEN" = None \/ environ !! "INFLUX_TOKEN" = Some "" ->
  worker environ client msg env = handler None msg env /\
  written (worker environ client msg env) = [] /\
  signals (worker environ client msg env) = [Ack].
Proof.
  intros Htok.
  assert (Hw : worker environ client msg env = handler None msg env).
  { unfold worker, write_api, load_config, os.Getenv. cbn [influxToken].
    destruct Htok as [-> | ->]; reflexivity. }
  rewrite Hw, handler_stages. cbn zeta.
  destruct (bad_timestamp _ _); repeat split.
Qed.

(** X12. A JSON number is usable as an override only if it is written as
    an integer: asInt64 accepts a number exactly when its literal is an
    optional sign followed by decimal digits and its value fits an int64
    (which the result then does). Literals with a fraction or an exponent
    are refused, and an integer literal is refused only for being out of
    range. *)
Theorem asInt64_integer_literals (n : string) :
  (forall z, asInt64 (VNumber n) = (z, true) -> integer_literal n /\ Int64.in_range z) /\
  (integer_literal n -> snd (asInt64 (VNumber n)) = false ->
   Number.Int64 n = strconv.Err strconv.ErrRange).
Proof.
  cbn [asInt64]. unfold Number.Int64. split.
  - intros z. destruct (strconv.ParseInt n) as [i|e] eqn:Hp; [|discriminate].
    intros [= <-]. split; [eapply ParseInt_ok_literal, Hp | eapply ParseInt_range, Hp].
  - intros Hlit. pose proof (ParseInt_literal n Hlit) as Hsyn.
    destruct (strconv.ParseInt n) as [i|[]]; simpl; [discriminate | congruence | reflexivity].
Qed.

(** X13. A message stamped by its producer is written with that stamp: if
    ts_ns holds an instant t of the years 1973 to 2262 in nanoseconds,
    microseconds, milliseconds or seconds, and t truncated to the unit
    lies in the sanity window, the handler submits one point whose
    timestamp is t truncated to the unit. *)
Theorem stamped_message_written (w : Sink) (msg : Msg) (env : Env)
    (n : string) (t f : Z) :
  10 ^ 17 <= t <= Int64.max_int ->
  f = 1 \/ f = 10 ^ 3 \/ f = 10 ^ 6 \/ f = 10 ^ 9 ->
  (parsed env) !! "ts_ns" = Some (VNumber n) ->
  Number.Int64 n = strconv.Ok (t / f) ->
  in_window (clock_check env) (t / f * f) ->
  resolve_ts env = t / f * f /\
  written (handler (Some w) msg env) =
    [NewPoint "telemetry" (point_tags msg env) (point_fields msg env) (t / f * f)].
Proof.
  intros Ht Hf Hk Hn Hwin.
  pose proof (unixAnyToTime_truncates t f Ht Hf) as Hres.
  assert (Hpos : 0 < t / f).
  { change (10 ^ 3) with 1000 in Hf. change (10 ^ 6) with 1000000 in Hf.
    change (10 ^ 9) with 1000000000 in Hf. change (10 ^ 17) with 100000000000000000 in Ht.
    destruct Hf as [-> | [-> | [-> | ->]]]; apply Z.div_str_pos; lia. }
  assert (Hts : resolve_ts env = t / f * f).
  { rewrite (resolve_ts_override env (t / f)); [exact Hres | | exact Hpos].
    unfold index. rewrite Hk. cbn [asInt64]. rewrite Hn. reflexivity. }
  split; [exact Hts|].
  rewrite <- Hts in Hwin |- *. apply handler_written, bad_timestamp_false, Hwin.
Qed.

End MoreProperties.

(* ===================================================================== *)
(** * Facts about the regular expressions and the calendar *)

Section RegexpFacts.

Import regexp.

Lemma append_nil_inv (x y : string) : String.append x y = "" -> x = "" /\ y = "".
Proof. destruct x; simpl; [tauto | discriminate]. Qed.

Lemma Matches_Void (z : string) : Matches Void z <-> False.
Proof. split; [inversion 1 | tauto]. Qed.

Lemma Matches_Eps (z : string) : Matches Eps z <-> z = "".
Proof. split; [inversion 1; reflexivity | intros ->; constructor]. Qed.

Lemma Matches_Class (p : ascii -> bool) (z : string) :
  Matches (Class p) z <-> exists c, z = String c "" /\ p c = true.
Proof.
  split; [inversion 1; subst; eauto | intros [c [-> Hc]]; constructor; exact Hc].
Qed.

Lemma Matches_Seq (r s : re) (z : string) :
  Matches (Seq r s) z <-> exists x y, z = String.append x y /\ Matches r x /\ Matches s y.
Proof.
  split; [inversion 1; subst; eauto | intros [x [y [-> [Hx Hy]]]]; constructor; assumption].
Qed.

Lemma Matches_Alt (r s : re) (z : string) :
  Matches (Alt r s) z <-> Matches r z \/ Matches s z.
Proof.
  split; [inversion 1; subst; tauto | intros [H | H]; [apply MAltL | apply MAltR]; exact H].
Qed.

Lemma Matches_Star (r : re) (z : string) :
  Matches (Star r) z <->
  z = "" \/ exists x y, z = String.append x y /\ Matches r x /\ Matches (Star r) y.
Proof.
  split.
  - inversion 1; subst; [left; reflexivity | right; eauto].
  - intros [-> | [x [y [-> [Hx Hy]]]]]; [apply MStar0 | apply MStarS; assumption].
Qed.

Lemma nullable_spec (r : re) : nullable r = true <-> Matches r "".
Proof.
  induction r as [| |p|r IHr s IHs|r IHr s IHs|r IHr]; simpl.
  - rewrite Matches_Void. split; [discriminate | tauto].
  - rewrite Matches_Eps. tauto.
  - rewrite Matches_Class. split; [discriminate | intros [c [Hc _]]; discriminate].
  - rewrite andb_true_iff, IHr, IHs, Matches_Seq. split.
    + intros [Hr Hs]. exists "", "". tauto.
    + intros [x [y [Heq [Hx Hy]]]]. symmetry in Heq.
      apply append_nil_inv in Heq as [-> ->]. tauto.
  - rewrite orb_true_iff, IHr, IHs, Matches_Alt. tauto.
  - split; [constructor | reflexivity].
Qed.

Lemma star_cons (r : re) (c : ascii) (s : string) :
  Matches (Star r) (String c s) ->
  exists x y, s = String.append x y /\ Matches r (String c x) /\ Matches (Star r) y.
Proof.
  intros H. remember (Star r) as sr eqn:Hsr. remember (String c s) as cs eqn:Hcs.
  revert c s Hcs.
  induction H as [| | | | | |r' x y Hx _ Hy IHy]; try discriminate.
  injection Hsr as ->. intros c s Hcs.
  destruct x as [|d x].
  - simpl in Hcs. apply (IHy eq_refl c s Hcs).
  - simpl in Hcs. injection Hcs as -> <-. eauto.
Qed.

Lemma deriv_spec (c : ascii) (r : re) (s : string) :
  Matches (deriv c r) s <-> Matches r (String c s).
Proof.
  revert s. induction r as [| |p|r IHr t IHt|r IHr t IHt|r IHr]; intros s; simpl.
  - rewrite !Matches_Void. tauto.
  - rewrite Matches_Void, Matches_Eps. split; [tauto | discriminate].
  - rewrite Matches_Class. destruct (p c) eqn:Hp.
    + rewrite Matches_Eps. split.
      * intros ->. eauto.
      * intros [d [Heq _]]. injection Heq as _ Hs. exact Hs.
    + rewrite Matches_Void. split; [tauto|]. intros [d [Heq Hd]].
      injection Heq as Hc _. congruence.
  - assert (Hseq : Matches (Seq (deriv c r) t) s <->
                   exists x y, s = String.append x y /\ Matches r (String c x) /\ Matches t y).
    { rewrite Matches_Seq. split; intros [x [y [Heq [Hx Hy]]]]; exists x, y;
        (split; [exact Heq|]); (split; [apply IHr, Hx | exact Hy]). }
    assert (Hgoal : Matches (Seq r t) (String c s) <->
                    (exists x y, s = String.append x y /\ Matches r (String c x) /\ Matches t y) \/
                    (Matches r "" /\ Matches t (String c s))).
    { rewrite Matches_Seq. split.
      - intros [x [y [Heq [Hx Hy]]]]. destruct x as [|d x].
        + right. change (String c s = y) in Heq. rewrite Heq. tauto.
        + change (String c s = String d (String.append x y)) in Heq.
          injection Heq as Hd Hs. subst d s. left. eauto.
      - intros [[x [y [-> [Hx Hy]]]] | [Hr Ht]].
        + exists (String c x), y. tauto.
        + exists "", (String c s). tauto. }
    rewrite Hgoal. destruct (nullable r) eqn:Hn.
    + rewrite Matches_Alt, Hseq, IHt. split; [|tauto].
      intros [H | H]; [tauto|]. right. split; [apply nullable_spec, Hn | exact H].
    + rewrite Hseq. split; [tauto|]. intros [H | [H _]]; [exact H|].
      apply nullable_spec in H. congruence.
  - rewrite !Matches_Alt, IHr, IHt. tauto.
  - rewrite Matches_Seq. split.
    + intros [x [y [-> [Hx Hy]]]]. apply IHr in Hx.
      apply (MStarS r (String c x) y Hx Hy).
    + intros H. apply star_cons in H as [x [y [-> [Hx Hy]]]].
      exists x, y. split; [reflexivity|]. split; [apply IHr, Hx | exact Hy].
Qed.

Lemma full_match_spec (r : re) (s : string) : full_match r s = true <-> Matches r s.
Proof.
  revert r. induction s as [|c s IH]; intros r; simpl.
  - apply nullable_spec.
  - rewrite IH. apply deriv_spec.
Qed.

Lemma star_class (p : ascii -> bool) (z : string) :
  Matches (Star (Class p)) z <-> forallb p (list_ascii_of_string z) = true.
Proof.
  split.
  - intros H. remember (Star (Class p)) as sr eqn:Hsr.
    induction H as [| | | | | |r x y Hx _ Hy IHy]; try discriminate; [reflexivity|].
    injection Hsr as ->. apply Matches_Class in Hx as [c [-> Hc]]. simpl.
    rewrite Hc. apply IHy. reflexivity.
  - induction z as [|c z IH]; simpl; [intros _; constructor|].
    intros H. apply andb_true_iff in H as [Hc Hz].
    apply (MStarS (Class p) (String c "") z); [constructor; exact Hc | apply IH, Hz].
Qed.

End RegexpFacts.

Section CalendarFacts.

Lemma ten_years_of_days (y m : Z) :
  3651 <= time.days_from_civil y m 1 - time.days_from_civil (y - 10) m 1 <= 3653.
Proof.
  unfold time.days_from_civil.
  destruct (m <=? 2), (2 <? m); Z.div_mod_to_equations; lia.
Qed.

(** The date of a day number is a date of the calendar, and the day
    number of that date is the one started from. *)
Lemma civil_round_trip (z : Z) :
  let '(y, m, d) := time.civil_from_days z in
  time.days_from_civil y m d = z /\ 1 <= m <= 12 /\ 1 <= d <= 31.
Proof.
  unfold time.civil_from_days, time.days_from_civil. cbv zeta.
  set (z' := z + 719468). set (era := z' / 146097). set (doe := z' - era * 146097).
  assert (Hdoe : 0 <= doe <= 146096) by (subst doe era; Z.div_mod_to_equations; lia).
  assert (Hz : z = era * 146097 + doe - 719468) by (subst doe z'; lia).
  clearbody doe.
  set (yoe := (doe - doe / 1460 + doe / 36524 - doe / 146096) / 365).
  assert (Hyoe : 0 <= yoe <= 399) by (subst yoe; Z.div_mod_to_equations; lia).
  set (doy := doe - (365 * yoe + yoe / 4 - yoe / 100)).
  assert (Hdoy : 0 <= doy <= 365) by (subst doy yoe; Z.div_mod_to_equations; lia).
  set (mp := (5 * doy + 2) / 153).
  assert (Hmp : 0 <= mp <= 11) by (subst mp; Z.div_mod_to_equations; lia).
  set (d := doy - (153 * mp + 2) / 5 + 1).
  assert (Hd : 1 <= d <= 31) by (subst d mp; Z.div_mod_to_equations; lia).
  set (m := if mp <? 10 then mp + 3 else mp - 9).
  assert (Hm : 1 <= m <= 12 /\ (if 2 <? m then m - 3 else m + 9) = mp /\
               (if m <=? 2 then yoe + era * 400 + (if m <=? 2 then 1 else 0) - 1
                else yoe + era * 400 + (if m <=? 2 then 1 else 0)) = yoe + era * 400).
  { subst m. destruct (Z.ltb_spec mp 10).
    - destruct (Z.ltb_spec 2 (mp + 3)); [|lia]. destruct (Z.leb_spec (mp + 3) 2); lia.
    - destruct (Z.ltb_spec 2 (mp - 9)); [lia|]. destruct (Z.leb_spec (mp - 9) 2); lia. }
  destruct Hm as [Hm [Hmp' Hy]]. clearbody m.
  split; [|split; assumption].
  rewrite Hy, Hmp'.
  assert (Hera : (yoe + era * 400) / 400 = era).
  { symmetry. apply Z.div_unique with (r := yoe); lia. }
  rewrite Hera.
  replace (yoe + era * 400 - era * 400) with yoe by lia.
  subst d doy. lia.
Qed.

(** In UTC ten calendar years back are 3651 to 3653 days back. *)
Lemma AddDate_utc_ten_years (now : Z) :
  now - 3653 * time.nanos_per_day <= time.AddDate_utc now (-10) 0 0
    <= now - 3651 * time.nanos_per_day.
Proof.
  unfold time.AddDate_utc.
  pose proof (civil_round_trip (now / time.nanos_per_day)) as Hrt.
  destruct (time.civil_from_days (now / time.nanos_per_day)) as [[y m] d].
  destruct Hrt as [Hday [Hm Hd]].
  replace ((m + 0 - 1) / 12) with 0 by (symmetry; apply Z.div_small; lia).
  replace ((m + 0 - 1) mod 12 + 1) with m by (rewrite Z.mod_small; lia).
  replace (y + -10 + 0) with (y - 10) by lia.
  pose proof (ten_years_of_days y m) as Hten.
  assert (Hmonth : time.days_from_civil y m d = time.days_from_civil y m 1 + (d - 1)).
  { unfold time.days_from_civil. lia. }
  assert (Hnpd : time.nanos_per_day = 86400000000000) by reflexivity.
  pose proof (Z.div_mod now time.nanos_per_day ltac:(rewrite Hnpd; lia)) as Hdm.
  rewrite Hnpd in *. lia.
Qed.

End CalendarFacts.

(* ===================================================================== *)
(** * Properties of the window in UTC and of the gateway *)

Section WindowLocated.

(** In UTC [AddDate_in] is the calendar arithmetic alone. *)
Lemma AddDate_in_UTC (t years months days : Z) :
  time.AddDate_in time.UTC t years months days = time.AddDate_utc t years months days.
Proof. unfold time.AddDate_in, time.UTC. rewrite Z.add_0_r, Z.sub_0_r. reflexivity. Qed.

(** X14. Wherever the process is located, the lower edge of the sanity
    window, ten calendar years before now in the local calendar, lies
    3651 to 3653 days before now, give or take the spread of the
    location's offsets from UTC (zero in UTC, one hour where daylight
    time is kept): a timestamp at most 3651 days less the spread old and
    at most 24 hours ahead always passes the check, one more than 3653
    days plus the spread old never does. *)
Theorem window_reach_located (loc : time.Location) (lo hi : Z) (now ts : time.Time) :
  (forall t, lo <= loc t <= hi) ->
  (now - 3651 * time.nanos_per_day + (hi - lo) <= ts <= now + 24 * time.Hour ->
   bad_timestamp (rt := located_amd64 loc) now ts = false) /\
  (ts < now - 3653 * time.nanos_per_day - (hi - lo) ->
   bad_timestamp (rt := located_amd64 loc) now ts = true).
Proof.
  intros Hloc.
  assert (Hedge : now - 3653 * time.nanos_per_day - (hi - lo)
                  <= time.AddDate_in loc now (-10) 0 0
                  <= now - 3651 * time.nanos_per_day + (hi - lo)).
  { unfold time.AddDate_in.
    pose proof (AddDate_utc_ten_years (now + loc now)) as Hten.
    set (unix := time.AddDate_utc (now + loc now) (-10) 0 0) in *.
    pose proof (Hloc now) as H1. pose proof (Hloc (unix - loc unix)) as H2. lia. }
  split; intros Hts.
  - apply bad_timestamp_false. unfold in_window. cbn [AddDate located_amd64]. lia.
  - apply bad_timestamp_true. unfold in_window. cbn [AddDate located_amd64]. lia.
Qed.

End WindowLocated.

Section GatewayFacts.

Import regexp gateway.

Lemma duration_spec (s : string) : okDur s = true <-> duration_form s.
Proof.
  unfold okDur, duration_form. rewrite full_match_spec. unfold duration_re.
  rewrite Matches_Seq. split.
  - intros [x [y [-> [Hx Hy]]]].
    apply Matches_Class in Hx as [c [-> Hc]].
    apply Matches_Seq in Hy as [ds [u [-> [Hds Hu]]]].
    apply Matches_Class in Hu as [u' [-> Hu]].
    apply Matches_Seq in Hds as [d [dl [-> [Hd Hdl]]]].
    apply Matches_Class in Hd as [d' [-> Hd]].
    apply star_class in Hdl.
    assert (c = "-"%char) as ->.
    { unfold one_of in Hc. simpl in Hc. rewrite orb_false_r in Hc.
      apply Ascii.eqb_eq in Hc. exact Hc. }
    exists (String d' dl), u'. simpl. rewrite Hd, Hdl. repeat split; congruence.
  - intros [ds [u [-> [Hne [Hds Hu]]]]].
    exists "-", (String.append ds (String u "")). split; [reflexivity|].
    split; [constructor; reflexivity|].
    apply Matches_Seq. exists ds, (String u ""). split; [reflexivity|].
    split; [|constructor; exact Hu].
    destruct ds as [|d dl]; [congruence|]. simpl in Hds.
    apply andb_true_iff in Hds as [Hd Hdl].
    apply (MSeq _ _ (String d "") dl); [constructor; exact Hd | apply star_class, Hdl].
Qed.

(** One more row: its point goes to the end of the series of its subject. *)
Lemma group_snoc (rows : list FluxRecord) (r : FluxRecord) :
  group (rows ++ [r]) =
  <[subject_of r := match group rows !! subject_of r with
                    | Some pts => pts
                    | None => []
                    end ++ [point_of r]]> (group rows).
Proof. unfold group. rewrite foldl_app. reflexivity. Qed.

Lemma group_lookup (rows : list FluxRecord) (s : string) :
  group rows !! s =
  match map point_of (List.filter (fun r => String.eqb (subject_of r) s) rows) with
  | [] => None
  | pts => Some pts
  end.
Proof.
  induction rows as [|r rows IH] using rev_ind; [reflexivity|].
  rewrite group_snoc, List.filter_app, map_app. simpl.
  destruct (String.eqb_spec (subject_of r) s) as [Heq|Hne].
  - rewrite <- Heq in *. rewrite lookup_insert_eq, IH. simpl.
    destruct (map point_of _) as [|pt pts]; reflexivity.
  - rewrite lookup_insert_ne by exact Hne. rewrite IH. simpl. rewrite app_nil_r. reflexivity.
Qed.

End GatewayFacts.

Section GatewayProperties.

Import regexp gateway.

(** X15. The start parameter of /api/ts is refused with status 400
    exactly when it is given, is not a minus sign followed by digits and
    one of the units s, m, h, d, w, and holds no letter T; an absent start
    is never refused. A refused request issues no query: the response is
    then the same for every client. *)
Theorem start_validated (db : Influx) (q : Params) :
  let refused :=
    q_start q <> "" /\ ~ duration_form (q_start q) /\
    strings.Contains (q_start q) "T" = false in
  ((exists msg, api_ts (Some db) q = HttpError msg 400) <-> refused) /\
  (refused -> forall db',
     api_ts (Some db') q = HttpError "bad 'start' (use -15m or RFC3339 time)" 400).
Proof.
  intros refused.
  assert (Hdec : forall db0 : Influx,
            (refused /\ api_ts (Some db0) q
                        = HttpError "bad 'start' (use -15m or RFC3339 time)" 400) \/
            (~ refused /\ forall msg, api_ts (Some db0) q <> HttpError msg 400)).
  { intros db0. unfold api_ts. cbn zeta.
    destruct (String.eqb_spec (q_start q) "") as [Hempty|Hgiven].
    - right. split; [intros [Hne _]; congruence|]. intros msg.
      change (okDur "-15m") with true. cbn [negb andb].
      destruct (query db0 _ _) as [err|rows [err|]]; [discriminate| |];
        destruct (negb _); discriminate.
    - destruct (okDur (q_start q)) eqn:Hok.
      + right. split.
        * intros [_ [Hnd _]]. apply Hnd, duration_spec, Hok.
        * intros msg. cbn [negb andb].
          destruct (query db0 _ _) as [err|rows [err|]]; [discriminate| |];
            destruct (negb _); discriminate.
      + destruct (strings.Contains (q_start q) "T") eqn:HT.
        * right. split; [intros [_ [_ Hc]]; congruence|]. intros msg. cbn [negb andb].
          destruct (query db0 _ _) as [err|rows [err|]]; [discriminate| |];
            destruct (negb _); discriminate.
        * left. split; [|reflexivity].
          split; [exact Hgiven|]. split; [|reflexivity].
          intros Hd. apply duration_spec in Hd. congruence. }
  split.
  - destruct (Hdec db) as [[Hr Heq] | [Hr Hne]].
    + split; [intros _; exact Hr | intros _; eauto].
    + split; [intros [msg Hmsg]; exfalso; apply (Hne msg Hmsg) | intros H; contradiction].
  - intros Hr db'. destruct (Hdec db') as [[_ Heq] | [Hnr _]]; [exact Heq | contradiction].
Qed.

(** X16. The raw field is never aggregated: when the field parameter is
    absent or is raw, the window parameter has no effect on the query sent
    nor on the response. *)
Theorem raw_not_aggregated (influx : option Influx) (f sub st w1 w2 : string) :
  f = "" \/ f = "raw" ->
  api_ts influx {| q_field := f; q_subject := sub; q_start := st; q_window := w1 |} =
  api_ts influx {| q_field := f; q_subject := sub; q_start := st; q_window := w2 |}.
Proof.
  intros Hf. unfold api_ts. destruct influx as [db|]; [|reflexivity]. cbn zeta.
  cbn [q_field q_subject q_start q_window].
  assert (Hflux : forall b s0 st0 w, build_flux b "raw" s0 st0 w = build_flux b "raw" s0 st0 "").
  { intros b s0 st0 w. unfold build_flux. cbn zeta.
    change (String.eqb "raw" "raw") with true. rewrite andb_false_r. reflexivity. }
  destruct Hf as [-> | ->]; cbn [String.eqb];
    rewrite (Hflux _ _ _ w1), (Hflux _ _ _ w2); reflexivity.
Qed.

(** X17. Grouping by subject: the series of a subject holds the points of
    exactly the rows carrying that subject, in the order of the rows; a
    subject without rows has no series, no series is empty, and a row
    whose subject is not a string counts under the empty subject. *)
Theorem group_by_subject (rows : list FluxRecord) (s : string) (pts : list point) :
  group rows !! s = Some pts <->
  pts <> [] /\
  pts = map point_of (List.filter (fun r => String.eqb (subject_of r) s) rows).
Proof.
  rewrite group_lookup.
  destruct (map point_of _) as [|pt l]; split.
  - discriminate.
  - intros [Hne ->]. congruence.
  - intros [= <-]. split; [discriminate | reflexivity].
  - intros [_ ->]. reflexivity.
Qed.

(** X18. The live stream ends only when a write to the client fails.
    Until then every delivered message is forwarded, in order, and a
    failure of NextMsg, timeout or not, is skipped; at the first failed
    write the handler returns and forwards nothing more. *)
Theorem ws_ends_on_write_failure (pre post : list ws_turn) (data : string) :
  (forall d, ~ In (Delivered d false) pre) ->
  ws_loop pre = (omap frame_of pre, false) /\
  ws_loop (pre ++ Delivered data false :: post) = (omap frame_of pre ++ [data], true).
Proof.
  induction pre as [|t pre IH]; intros Hpre; [split; reflexivity|].
  destruct IH as [IH1 IH2].
  { intros d Hd. apply (Hpre d). right. exact Hd. }
  destruct t as [err|d [|]].
  - split; [exact IH1 | exact IH2].
  - split; simpl; [rewrite IH1 | rewrite IH2]; reflexivity.
  - exfalso. apply (Hpre d). left. reflexivity.
Qed.

End GatewayProperties.

(* ===================================================================== *)
(** * The further properties at work *)

Section MoreInstances.

Import Scenario MoreScenario gateway.

#[local] Existing Instance utc_amd64.

(** The clock of the scenarios in milliseconds. *)
Lemma override_round_trip_witness :
  10 ^ 17 <= now <= Int64.max_int /\
  unixAnyToTime (now / 10 ^ 6) = now / 10 ^ 6 * 10 ^ 6.
Proof.
  assert (Hnow : 10 ^ 17 <= now <= Int64.max_int) by (vm_compute; split; discriminate).
  split; [exact Hnow|].
  exact (proj1 (override_round_trip now (10 ^ 6) Hnow (or_intror (or_intror (or_introl eq_refl))))).
Defined.

(** 1e17 - 1 microseconds overflow. *)
Lemma override_exact_iff_witness :
  10 ^ 14 <= 10 ^ 17 - 1 < 10 ^ 17 /\
  unixAnyToTime (10 ^ 17 - 1) <> (10 ^ 17 - 1) * 10 ^ 3.
Proof.
  assert (Hband : 10 ^ 14 <= 10 ^ 17 - 1 < 10 ^ 17) by (vm_compute; split; [discriminate | reflexivity]).
  split; [exact Hband|].
  intros Heq.
  apply (proj1 (proj1 (proj2 (override_exact_iff (10 ^ 17 - 1))) Hband)) in Heq.
  vm_compute in Heq. apply Heq. reflexivity.
Defined.

(** Scenario A with the payload ranged over backwards. *)
Lemma extractFields_any_order_witness :
  reverse (map_to_list decoded_A) ≡ₚ map_to_list decoded_A /\
  extractFields_ranged [("x", VNumber "1.5")] (reverse (map_to_list decoded_A)) decoded_A
  = extractFields decoded_A.
Proof.
  assert (Htop : reverse (map_to_list decoded_A) ≡ₚ map_to_list decoded_A)
    by apply reverse_Permutation.
  split; [exact Htop|].
  apply extractFields_any_order; [|exact Htop].
  intros dv Hdv. vm_compute in Hdv. injection Hdv as <-. vm_compute. reflexivity.
Defined.

(** Scenario B with and without its ts_ns. *)
Lemma control_members_not_extracted_witness :
  decoded_B !! "data" = decoded_B_unstamped !! "data" /\
  (extractFields decoded_B).1 = (extractFields decoded_B_unstamped).1.
Proof.
  split; [reflexivity|].
  apply (control_members_not_extracted decoded_B decoded_B_unstamped); [|reflexivity].
  intros k Hk. unfold decoded_B, decoded_B_unstamped.
  apply lookup_insert_ne. intros <-. vm_compute in Hk. discriminate.
Defined.

(** Scenario A: the field x of the written point is a float64. *)
Lemma written_field_types_witness :
  let p := NewPoint "telemetry" (point_tags (msg_of payload_A) env_A)
                    (point_fields (msg_of payload_A) env_A) receipt in
  In p (written (handler (Some sink_accepting) (msg_of payload_A) env_A)) /\
  fields p !! "x" = Some (VFloat64 (S754_finite false 6755399441055744 (-52))) /\
  "x" <> "raw".
Proof.
  intros p.
  assert (Hin : In p (written (handler (Some sink_accepting) (msg_of payload_A) env_A))).
  { vm_compute. left. reflexivity. }
  assert (Hx : fields p !! "x" = Some (VFloat64 (S754_finite false 6755399441055744 (-52))))
    by (vm_compute; reflexivity).
  split; [exact Hin|]. split; [exact Hx|].
  destruct (written_field_types (Some sink_accepting) (msg_of payload_A) env_A p "x" _ Hin Hx)
    as [[Hraw _] | [Hne _]]; [discriminate | exact Hne].
Defined.

(** Scenario E: a timeout is the one way to a Nak. *)
Lemma nak_iff_witness :
  signals (handler (Some sink_timeout) (msg_of payload_A) env_A) = [Nak] /\
  signals (handler None (msg_of payload_A) env_A) = [Ack].
Proof.
  pose proof (nak_iff (Some sink_timeout) (msg_of payload_A) env_A) as [Hnak _].
  pose proof (nak_iff None (msg_of payload_A) env_A) as [_ [_ Hnone]].
  split; [|exact (Hnone eq_refl)].
  apply Hnak. split.
  - vm_compute. split; discriminate.
  - exists sink_timeout, "dial tcp 127.0.0.1:8086: i/o timeout". repeat split.
Defined.

(** Scenario A: one point submitted. *)
Lemma one_write_attempt_witness :
  is_Some (Some sink_accepting) /\
  in_window (clock_check env_A) (resolve_ts env_A) /\
  written (handler (Some sink_accepting) (msg_of payload_A) env_A) <> [].
Proof.
  assert (Hs : is_Some (Some sink_accepting)) by eauto.
  assert (Hwin : in_window (clock_check env_A) (resolve_ts env_A))
    by (vm_compute; split; discriminate).
  split; [exact Hs|]. split; [exact Hwin|].
  exact (proj2 (proj1 (proj2 (one_write_attempt (Some sink_accepting) (msg_of payload_A) env_A)))
           (conj Hs Hwin)).
Defined.

(** Scenario A delivered twice. *)
Lemma redelivery_same_point_witness :
  let p1 := NewPoint "telemetry" (point_tags (msg_of payload_A) env_A)
                     (point_fields (msg_of payload_A) env_A) receipt in
  let p2 := NewPoint "telemetry" (point_tags (msg_of payload_A) env_A_again)
                     (point_fields (msg_of payload_A) env_A_again) receipt in
  decoded env_A = decoded env_A_again /\
  In p1 (written (handler (Some sink_timeout) (msg_of payload_A) env_A)) /\
  In p2 (written (handler (Some sink_accepting) (msg_of payload_A) env_A_again)) /\
  p1 = p2.
Proof.
  intros p1 p2.
  assert (H1 : In p1 (written (handler (Some sink_timeout) (msg_of payload_A) env_A)))
    by (vm_compute; left; reflexivity).
  assert (H2 : In p2 (written (handler (Some sink_accepting) (msg_of payload_A) env_A_again)))
    by (vm_compute; left; reflexivity).
  split; [reflexivity|]. split; [exact H1|]. split; [exact H2|].
  apply (redelivery_same_point (Some sink_timeout) (Some sink_accepting) (msg_of payload_A)
           env_A env_A_again p1 p2 eq_refl); [|exact H1 | exact H2].
  left. split; [eexists; reflexivity | reflexivity].
Defined.

Lemma unsalvageable_wrapped_witness :
  unsalvageable "outside retention policy" = true /\
  unsalvageable
    (String.append "write: " (String.append "outside retention policy" " (422)")) = true.
Proof.
  split; [reflexivity|].
  exact (unsalvageable_wrapped "outside retention policy" "write: " " (422)" eq_refl).
Defined.

Lemma getenv_fallback_witness :
  environ_dry !! "INFLUX_ORG" = None /\
  getenv environ_dry "INFLUX_ORG" "r4f" = "r4f".
Proof.
  split; [reflexivity|].
  exact (proj1 (getenv_fallback environ_dry "INFLUX_ORG" "r4f" "") (or_introl eq_refl)).
Defined.

Lemma no_token_no_write_witness :
  environ_dry !! "INFLUX_TOKEN" = None /\
  written (worker environ_dry client_accepting (msg_of payload_A) env_A) = [].
Proof.
  split; [reflexivity|].
  exact (proj1 (proj2 (no_token_no_write environ_dry client_accepting (msg_of payload_A) env_A
                         (or_introl eq_refl)))).
Defined.

Lemma asInt64_integer_literals_witness :
  asInt64 (VNumber "1700000000000") = (1700000000000, true) /\
  integer_literal "1700000000000".
Proof.
  split; [reflexivity|].
  exact (proj1 (proj1 (asInt64_integer_literals "1700000000000") 1700000000000 eq_refl)).
Defined.

(** Scenario B: stamped in milliseconds, written with that stamp. *)
Lemma stamped_message_written_witness :
  in_window (clock_check env_B) (1700000000000000000 / 10 ^ 6 * 10 ^ 6) /\
  resolve_ts env_B = 1700000000000000000.
Proof.
  assert (Hwin : in_window (clock_check env_B) (1700000000000000000 / 10 ^ 6 * 10 ^ 6))
    by (vm_compute; split; discriminate).
  split; [exact Hwin|].
  assert (Ht : 10 ^ 17 <= 1700000000000000000 <= Int64.max_int)
    by (vm_compute; split; discriminate).
  exact (proj1 (stamped_message_written sink_accepting (msg_of payload_B) env_B
                  "1700000000000" 1700000000000000000 (10 ^ 6) Ht
                  (or_intror (or_intror (or_introl eq_refl))) eq_refl eq_refl Hwin)).
Defined.

(** On the US east coast at noon of 8 March 2025 the edge is 3653 days
    and one hour back; a receipt two seconds old passes the check. *)
Lemma window_reach_located_witness :
  (forall t, - (5 * time.Hour) <= eastern t <= - (4 * time.Hour)) /\
  time.AddDate_in eastern noon_eastern (-10) 0 0
    = noon_eastern - 3653 * time.nanos_per_day - time.Hour /\
  bad_timestamp (rt := located_amd64 eastern) noon_eastern (noon_eastern - 2 * time.Second)
    = false.
Proof.
  assert (Hloc : forall t, - (5 * time.Hour) <= eastern t <= - (4 * time.Hour)).
  { intros t. unfold eastern.
    destruct ((edt_2015_start <=? t) && (t <? edt_2015_end)); vm_compute; split; discriminate. }
  split; [exact Hloc|]. split; [vm_compute; reflexivity|].
  apply (proj1 (window_reach_located eastern (- (5 * time.Hour)) (- (4 * time.Hour))
                  noon_eastern (noon_eastern - 2 * time.Second) Hloc)).
  vm_compute. split; discriminate.
Defined.

Lemma start_validated_witness :
  let q := {| q_field := "angle_deg"; q_subject := ""; q_start := "yesterday"; q_window := "" |} in
  q_start q <> "" /\
  api_ts (Some db) q = HttpError "bad 'start' (use -15m or RFC3339 time)" 400.
Proof.
  intros q. split; [discriminate|].
  apply (proj2 (start_validated db q)).
  split; [discriminate|]. split; [|reflexivity].
  intros Hd. apply duration_spec in Hd. vm_compute in Hd. discriminate.
Defined.

Lemma raw_not_aggregated_witness :
  api_ts (Some db) {| q_field := ""; q_subject := ""; q_start := "-1h"; q_window := "1s" |} =
  api_ts (Some db) {| q_field := ""; q_subject := ""; q_start := "-1h"; q_window := "" |}.
Proof. exact (raw_not_aggregated (Some db) "" "" "-1h" "1s" "" (or_introl eq_refl)). Defined.

Lemma group_by_subject_witness :
  group rows !! "telemetry.arm1" =
    Some [ {| T := time.Unix 1 0; V := VNumber "10" |};
           {| T := time.Unix 3 0; V := VNumber "11" |} ] /\
  group rows !! "" = Some [ {| T := time.Unix 4 0; V := VNumber "0" |} ].
Proof.
  split; apply group_by_subject; (split; [discriminate | vm_compute; reflexivity]).
Defined.

Lemma ws_ends_on_write_failure_witness :
  (forall d, ~ In (Delivered d false) turns) /\
  ws_loop (turns ++ Delivered "c" false :: [Delivered "d" true]) = (["a"; "b"; "c"], true).
Proof.
  assert (H : forall d, ~ In (Delivered d false) turns).
  { intros d [H | [H | [H | [H | []]]]]; discriminate. }
  split; [exact H|].
  exact (proj2 (ws_ends_on_write_failure turns [Delivered "d" true] "c" H)).
Defined.

End MoreInstances.
